(** * datakit: the disk, otelcol and jaeger inputs and the span pipeline

    The development covers
    - the [disk] input's [collect] loop,
    - the [otelcol] HTTP entry point [ApiWrite],
    - the [jaeger] input's [RegHTTPHandler] with the replay consumer it
      registers and the filter chain it configures,
    - the span filter chain, its terminal feed and the ingestion
      orchestrator, as far as the specification describes them.

    Go values are embedded as follows: [uint64]/[int64] as [Z] with the
    wrap-around written out, [float64] as NaN, an infinity or a rational,
    [string] as [string], maps as [gmap] (or as an association list where
    the iteration order is observable), nilable pointers as [option],
    multi-value returns [(v, err)] as [result], objects shared through a
    pointer as entries of a heap, and package globals as an explicit state
    record that every function threads.  What a package takes from its
    collaborators is gathered in a class. *)

From Stdlib Require Import ZArith QArith List Bool String Lia.
From stdpp Require Import base option list strings gmap.
Import ListNotations.

Open Scope Z_scope.

(** Go's [(value, error)] return convention. *)
Inductive result (E A : Type) : Type :=
| Ok (a : A)
| Err (e : E).
Arguments Ok {E A} a.
Arguments Err {E A} e.

(** ** float64

    A [float64] is either NaN, an infinity or a finite number.  Finite
    numbers are carried as rationals and the arithmetic on them is exact:
    rounding is not part of the model, the IEEE-754 special cases (division
    by zero, comparisons with NaN) are. *)
Module F64.

Inductive float64 : Type :=
| NaN
| Inf (neg : bool)
| Num (q : Q).

Definition zero : float64 := Num 0.

(** [float64(n)] for an unsigned integer [n]. *)
Definition of_uint64 (n : Z) : float64 := Num (inject_Z n).

Definition is_neg (q : Q) : bool := negb (Qle_bool 0 q).
Definition is_zero (q : Q) : bool := Qeq_bool q 0.

Definition finite (x : float64) : bool :=
  match x with Num _ => true | _ => false end.

Definition add (x y : float64) : float64 :=
  match x, y with
  | NaN, _ => NaN
  | _, NaN => NaN
  | Inf a, Inf b => if Bool.eqb a b then Inf a else NaN
  | Inf a, Num _ => Inf a
  | Num _, Inf b => Inf b
  | Num a, Num b => Num (a + b)
  end.

Definition mul (x y : float64) : float64 :=
  match x, y with
  | NaN, _ => NaN
  | _, NaN => NaN
  | Inf a, Inf b => Inf (xorb a b)
  | Inf a, Num b => if is_zero b then NaN else Inf (xorb a (is_neg b))
  | Num a, Inf b => if is_zero a then NaN else Inf (xorb (is_neg a) b)
  | Num a, Num b => Num (a * b)
  end.

Definition div (x y : float64) : float64 :=
  match x, y with
  | NaN, _ => NaN
  | _, NaN => NaN
  | Inf _, Inf _ => NaN
  | Inf a, Num b => Inf (xorb a (is_neg b))
  | Num _, Inf _ => Num 0
  | Num a, Num b =>
      if is_zero b
      then (if is_zero a then NaN else Inf (is_neg a))
      else Num (a / b)
  end.

(** [x <= y]; every comparison with NaN is false. *)
Definition le (x y : float64) : bool :=
  match x, y with
  | NaN, _ => false
  | _, NaN => false
  | Inf true, _ => true
  | Inf false, Inf false => true
  | Inf false, _ => false
  | Num _, Inf neg => negb neg
  | Num a, Num b => Qle_bool a b
  end.

Definition ge (x y : float64) : bool := le y x.

(** [x < y]. *)
Definition lt (x y : float64) : bool := le x y && negb (le y x).

End F64.

(** ** The disk input *)
Module Disk.
Import F64.

Definition inputName : string := "disk".
Definition OSLinux : string := "linux".
Definition OSDarwin : string := "darwin".

(** [uint64] addition. *)
Definition wrap64 (z : Z) : Z := z mod 2 ^ 64.

Record UsageStat : Type := {
  Fstype : string;
  Total : Z;
  Free : Z;
  Used : Z;
  InodesTotal : Z;
  InodesUsed : Z;
  InodesFree : Z;
  InodesUsedPercent : float64
}.

Record PartitionStat : Type := {
  Device : string;
  Mountpoint : string
}.

(** *** point.KVs *)
Inductive FieldValue : Type :=
| VString (s : string)
| VUint (n : Z)
| VFloat (f : float64).

Record KV : Type := mkKV {
  Key : string;
  Val : FieldValue;
  IsTag : bool
}.

Definition KVs : Type := list KV.

Definition NewKV (k : string) (v : FieldValue) (isTag : bool) : KV :=
  mkKV k v (isTag && match v with VString _ => true | _ => false end).

Fixpoint hasKey (x : KVs) (k : string) : bool :=
  match x with
  | [] => false
  | kv :: rest => if String.eqb (Key kv) k then true else hasKey rest k
  end.

(** Overwrite the first entry whose key is [Key kv]. *)
Fixpoint override (x : KVs) (kv : KV) : KVs :=
  match x with
  | [] => []
  | kv' :: rest =>
      if String.eqb (Key kv') (Key kv) then kv :: rest
      else kv' :: override rest kv
  end.

(** [x.Add(k, v, isTag, force)]: an existing key is overwritten in place
    when [force] is set and left alone otherwise; a new key is appended. *)
Definition Add (x : KVs) (k : string) (v : FieldValue) (isTag force : bool) : KVs :=
  if hasKey x k
  then (if force then override x (NewKV k v isTag) else x)
  else x ++ [NewKV k v isTag].

(** [x.Add(...)] as a statement, its result dropped: only the in-place
    overwrite of an existing key reaches the caller's slice. *)
Definition Add_discarded (x : KVs) (k : string) (v : FieldValue) (isTag force : bool) : KVs :=
  if hasKey x k then Add x k v isTag force else x.

Definition AddTag (x : KVs) (k v : string) : KVs := Add x k (VString v) true false.

Fixpoint Get (x : KVs) (k : string) : option FieldValue :=
  match x with
  | [] => None
  | kv :: rest => if String.eqb (Key kv) k then Some (Val kv) else Get rest k
  end.

Record Point : Type := {
  ptName : string;
  ptKVs : KVs;
  ptTime : Z
}.

Definition NewPointV2 (name : string) (kvs : KVs) (ts : Z) : Point :=
  {| ptName := name; ptKVs := kvs; ptTime := ts |}.

Record DiskCacheEntry : Type := {
  Disks : list string;
  LastUpdated : Z
}.

(** The fields of [Input] that [collect] reads or writes. *)
Record Input : Type := mkInput {
  EnableLVMMapperPath : bool;
  collectCache : list Point;
  mergedTags : list (string * string);
  diskCache : option (gmap string DiskCacheEntry)
}.

Definition set_collectCache (c : list Point) (ipt : Input) : Input :=
  mkInput (EnableLVMMapperPath ipt) c (mergedTags ipt) (diskCache ipt).

Definition set_diskCache (d : option (gmap string DiskCacheEntry)) (ipt : Input) : Input :=
  mkInput (EnableLVMMapperPath ipt) (collectCache ipt) (mergedTags ipt) d.

Definition second : Z := 1000000000.

Definition TrimPrefix (s pre : string) : string :=
  if String.prefix pre s
  then String.substring (String.length pre) (String.length s - String.length pre) s
  else s.

(** The operating system and what its file system answers. *)
Class Host : Type := {
  GOOS : string;
  findDiskFromDM : string -> result string (list string);
  findDiskFromBlock : string -> result string (list string);
  GetMapperPath : string -> result string string
}.

Section Collect.

Context `{H : Host}.

(** [findDisk], at wall-clock time [now]. *)
Definition findDisk (now : Z) (partition : string) (ipt : Input)
  : result string (list string) * Input :=
  if negb (String.prefix "/dev/" partition)
  then (Err ("invalid partition path: " ++ partition)%string, ipt)
  else
    let partitionName := TrimPrefix partition "/dev/" in
    match diskCache ipt with
    | None => (Err "diskCache cannot be nil"%string, ipt)
    | Some cache =>
        let cached :=
          match cache !! partitionName with
          | Some e => if now - LastUpdated e <? 60 * second then Some (Disks e) else None
          | None => None
          end in
        match cached with
        | Some disks => (Ok disks, ipt)
        | None =>
            let r := if String.prefix "dm-" partitionName
                     then findDiskFromDM partitionName
                     else findDiskFromBlock partitionName in
            match r with
            | Err e => (Err e, ipt)
            | Ok disks =>
                (Ok disks,
                 set_diskCache
                   (Some (<[partitionName := {| Disks := disks; LastUpdated := now |}]> cache))
                   ipt)
            end
        end
    end.

(** The [used_percent] of one usage entry. *)
Definition usedPercent (du : UsageStat) : float64 :=
  if 0 <? wrap64 (Used du + Free du)
  then mul (div (of_uint64 (Used du))
                (add (of_uint64 (Used du)) (of_uint64 (Free du))))
           (Num 100)
  else zero.

(** The key-values common to every operating system. *)
Definition baseKVs (part : PartitionStat) (du : UsageStat) : KVs :=
  let kvs : KVs := [] in
  let kvs := Add kvs "device" (VString (Device part)) true true in
  let kvs := Add kvs "fstype" (VString (Fstype du)) true true in
  let kvs := Add kvs "total" (VUint (Total du)) false true in
  let kvs := Add kvs "free" (VUint (Free du)) false true in
  let kvs := Add kvs "used" (VUint (Used du)) false true in
  Add kvs "used_percent" (VFloat (usedPercent du)) false true.

(** The [switch runtime.GOOS] block. *)
Definition osKVs (now : Z) (part : PartitionStat) (du : UsageStat)
           (kvs : KVs) (ipt : Input) : KVs * Input :=
  if String.eqb GOOS OSLinux || String.eqb GOOS OSDarwin then
    let kvs := Add kvs "inodes_total_mb" (VUint (InodesTotal du / 1000000)) false true in
    let kvs := Add kvs "inodes_free_mb" (VUint (InodesFree du / 1000000)) false true in
    let kvs := Add kvs "inodes_used_mb" (VUint (InodesUsed du / 1000000)) false true in
    let kvs := Add kvs "inodes_used_percent" (VFloat (InodesUsedPercent du)) false true in
    let kvs := Add kvs "inodes_total" (VUint (InodesTotal du)) false true in
    let kvs := Add kvs "inodes_free" (VUint (InodesFree du)) false true in
    let kvs := Add kvs "inodes_used" (VUint (InodesUsed du)) false true in
    let kvs := Add kvs "mount_point" (VString (Mountpoint part)) true true in
    match findDisk now (Device part) ipt with
    | (Ok physicalDevices, ipt') =>
        let kvs := Add kvs "disk_name" (VString (String.concat " " physicalDevices)) true true in
        if EnableLVMMapperPath ipt' && String.prefix "/dev/dm-" (Device part) then
          match GetMapperPath (Device part) with
          | Ok mapperPath => (Add_discarded kvs "device" (VString mapperPath) true true, ipt')
          | Err _ => (kvs, ipt')
          end
        else (kvs, ipt')
    | (Err _, ipt') => (kvs, ipt')
    end
  else (kvs, ipt).

Definition addTags (kvs : KVs) (tags : list (string * string)) : KVs :=
  fold_left (fun acc kv => AddTag acc (fst kv) (snd kv)) tags kvs.

(** One iteration of the loop for a usable entry. *)
Definition collectOne (ptTS now : Z) (part : PartitionStat) (du : UsageStat)
           (ipt : Input) : Input :=
  let '(kvs, ipt1) := osKVs now part du (baseKVs part du) ipt in
  let kvs := addTags kvs (mergedTags ipt1) in
  set_collectCache (collectCache ipt1 ++ [NewPointV2 inputName kvs ptTS]) ipt1.

(** [for index, du := range disks]; [None] is the run-time panic of
    [partitions[index]] out of range. *)
Fixpoint collectLoop (ptTS now : Z) (partitions : list PartitionStat)
         (index : nat) (disks : list (option UsageStat)) (ipt : Input)
  : option Input :=
  match disks with
  | [] => Some ipt
  | None :: rest =>
      match partitions !! index with
      | None => None
      | Some _ => collectLoop ptTS now partitions (S index) rest ipt
      end
  | Some du :: rest =>
      if Total du =? 0
      then collectLoop ptTS now partitions (S index) rest ipt
      else
        match partitions !! index with
        | None => None
        | Some part =>
            collectLoop ptTS now partitions (S index) rest
                        (collectOne ptTS now part du ipt)
        end
  end.

(** [collect]: the answer of [FilterUsage] is an argument. *)
Definition collect (ptTS now : Z)
           (usage : result string (list (option UsageStat) * list PartitionStat))
           (ipt : Input) : option (option string * Input) :=
  let ipt := set_collectCache [] ipt in
  match usage with
  | Err e => Some (Some ("error getting disk usage info: " ++ e)%string, ipt)
  | Ok (disks, partitions) =>
      match collectLoop ptTS now partitions 0 disks ipt with
      | None => None
      | Some ipt' => Some (None, ipt')
      end
  end.

(** The point reports the [used_percent] of the entry. *)
Definition carries_used_percent (pt : Point) (du : UsageStat) : Prop :=
  Get (ptKVs pt) "used_percent" = Some (VFloat (usedPercent du)).

(** The entries for which a point is built. *)
Definition usable (disks : list (option UsageStat)) : list UsageStat :=
  omap (fun du : option UsageStat =>
          match du with
          | Some u => if Total u =? 0 then None else Some u
          | None => None
          end) disks.

End Collect.

End Disk.

(** ** The otelcol write entry point *)
Module Otelcol.

(** The types of the surrounding packages; [W] is everything a handler
    can touch. *)
Class Types : Type := {
  Request : Type;
  Point : Type;
  Category : Type;
  RespBody : Type;
  error : Type;
  Any : Type;
  W : Type
}.

Section ApiWrite.

Context `{T : Types}.

(** [interface OtelAPIWrite]. *)
Record OtelAPIWrite : Type := {
  Feed : Request -> Category -> list Point -> W -> option error * W
}.

(** [httpapi.APIWriteResult] after a successful parse. *)
Record APIWriteResult : Type := {
  Points : list Point;
  Category_ : Category;
  RespBody_ : RespBody
}.

(** What [httpapi] provides, and the type assertion
    [v.(OtelAPIWrite)] on an [interface{}] value. *)
Class Httpapi : Type := {
  ErrInvalidAPIHandler : error;
  asOtelAPIWrite : Any -> option OtelAPIWrite;
  APIV1Write : Request -> W -> result error APIWriteResult * W
}.

Context `{A : Httpapi}.

(** One invocation of [h.Feed]. *)
Record FeedCall : Type := {
  fcRequest : Request;
  fcCategory : Category;
  fcPoints : list Point
}.

(** What [ApiWrite] leaves behind: the two return values, the [Feed]
    calls it made, and the world. *)
Record ApiOut : Type := {
  retBody : option RespBody;
  retErr : option error;
  feedCalls : list FeedCall;
  world : W
}.

Definition ApiWrite (x : list Any) (req : Request) (w : W) : ApiOut :=
  if negb (length x =? 1)%nat
  then {| retBody := None; retErr := Some ErrInvalidAPIHandler; feedCalls := []; world := w |}
  else
    match x !! 0%nat ≫= asOtelAPIWrite with
    | None =>
        {| retBody := None; retErr := Some ErrInvalidAPIHandler; feedCalls := []; world := w |}
    | Some h =>
        match APIV1Write req w with
        | (Err err, w1) =>
            {| retBody := None; retErr := Some err; feedCalls := []; world := w1 |}
        | (Ok wr, w1) =>
            if negb (length (Points wr) =? 0)%nat
            then
              (* the error of Feed is ignored *)
              let '(_, w2) := Feed h req (Category_ wr) (Points wr) w1 in
              {| retBody := Some (RespBody_ wr); retErr := None;
                 feedCalls := [{| fcRequest := req; fcCategory := Category_ wr;
                                  fcPoints := Points wr |}];
                 world := w2 |}
            else
              {| retBody := Some (RespBody_ wr); retErr := None;
                 feedCalls := []; world := w1 |}
        end
    end.

End ApiWrite.

End Otelcol.

(** ** The jaeger input *)
Module Jaeger.
Import F64.

Definition inputName : string := "jaeger".

(** [time.Duration] counts nanoseconds. *)
Definition Millisecond : Z := 1000000.
Definition Second : Z := 1000 * Millisecond.
Definition Hour : Z := 3600 * Second.

Definition bytes : Type := list Byte.byte.

(** [map[string][]string]: [http.Header] and [url.Values]. *)
Definition Values : Type := gmap string (list string).

(** [itrace.Sampler], its configured field. *)
Record Sampler : Type := {
  SamplingRateGlobal : float64
}.

(** The method values that [RegHTTPHandler] appends to the chain, each
    with the configuration its receiver was given. *)
Inductive Filter : Type :=
| CloseResource_Close (ignResList : gmap string (list string))
| PenetrateErrorTracing
| KeepRareResource_Keep (open : bool) (duration : Z)
| Sampler_Sample (smp : Sampler).

Inductive LogEntry : Type :=
| LogError (msg : string)
| LogDebug (msg : string).

(** A [*storage.Storage] is the address of the instance. *)
Definition Storage : Type := nat.

(** Types of the collaborating packages; [W] is everything an HTTP
    handler can touch. *)
Class Types : Type := {
  WorkerPoolConfig : Type;
  WorkerPool : Type;
  StorageConfig : Type;
  Feeder : Type;
  GlobalTagger : Type;
  Tags : Type;
  error : Type;
  URL : Type;
  MapEntries : Type;
  ResponseWriter : Type;
  RespFunc : Type;
  W : Type
}.

Section Input.

Context `{T : Types}.

(** [storage.Request], the protobuf message of a buffered request. *)
Record RequestPB : Type := {
  pbMethod : string;
  pbProto : string;
  pbProtoMajor : Z;
  pbProtoMinor : Z;
  pbHeader : MapEntries;
  pbBody : bytes;
  pbContentLength : Z;
  pbTransferEncoding : list string;
  pbClose : bool;
  pbHost : string;
  pbForm : MapEntries;
  pbPostForm : MapEntries;
  pbRemoteAddr : string;
  pbRequestUri : string;
  pbUrl : string
}.

(** [http.Request], the fields the input sets. *)
Record Request : Type := {
  Method : string;
  Proto : string;
  ProtoMajor : Z;
  ProtoMinor : Z;
  Header : Values;
  Body : bytes;
  ContentLength : Z;
  TransferEncoding : list string;
  Close : bool;
  Host : string;
  Form : Values;
  PostForm : Values;
  RemoteAddr : string;
  RequestURI : string;
  URL_ : option URL
}.

Definition Handler : Type := ResponseWriter -> Request -> W -> W.

(** A storage consumer, [func(buf []byte) error], with what it logs. *)
Definition Consumer : Type := bytes -> W -> option error * list LogEntry * W.

Record Route : Type := {
  routeMethod : string;
  routePath : string;
  routeHandler : Handler
}.

(** [itrace.AfterGather]: what the options of [NewAfterGather] set, and
    the appended filters. *)
Record AfterGather : Type := mkAfterGather {
  agRetry : option Z;
  agExtraTags : Tags;
  agFeeder : Feeder;
  agFilters : list Filter
}.

Record Input : Type := {
  Endpoint : string;
  KeepRareResource : bool;
  CloseResource : gmap string (list string);
  Sampler_ : option Sampler;
  WPConfig : option WorkerPoolConfig;
  LocalCacheConfig : option StorageConfig;
  feeder : Feeder;
  Tagger : GlobalTagger
}.

(** The package-level variables, the [AfterGather] objects on the heap,
    the consumers bound in each storage instance, the HTTP routes, and
    the log. *)
Record Pkg : Type := mkPkg {
  wkpool : option WorkerPool;
  localCache : option Storage;
  afterGatherRun : option nat;
  agHeap : gmap nat AfterGather;
  consumers : gmap (Storage * Z) Consumer;
  routes : list Route;
  logged : list LogEntry
}.

Definition set_wkpool (p : option WorkerPool) (g : Pkg) : Pkg :=
  mkPkg p (localCache g) (afterGatherRun g) (agHeap g) (consumers g) (routes g) (logged g).
Definition set_localCache (s : option Storage) (g : Pkg) : Pkg :=
  mkPkg (wkpool g) s (afterGatherRun g) (agHeap g) (consumers g) (routes g) (logged g).
Definition set_afterGatherRun (p : option nat) (g : Pkg) : Pkg :=
  mkPkg (wkpool g) (localCache g) p (agHeap g) (consumers g) (routes g) (logged g).
Definition set_agHeap (h : gmap nat AfterGather) (g : Pkg) : Pkg :=
  mkPkg (wkpool g) (localCache g) (afterGatherRun g) h (consumers g) (routes g) (logged g).
Definition set_consumers (c : gmap (Storage * Z) Consumer) (g : Pkg) : Pkg :=
  mkPkg (wkpool g) (localCache g) (afterGatherRun g) (agHeap g) c (routes g) (logged g).
Definition set_routes (r : list Route) (g : Pkg) : Pkg :=
  mkPkg (wkpool g) (localCache g) (afterGatherRun g) (agHeap g) (consumers g) r (logged g).
Definition Errorf (msg : string) (g : Pkg) : Pkg :=
  mkPkg (wkpool g) (localCache g) (afterGatherRun g) (agHeap g) (consumers g) (routes g)
        (logged g ++ [LogError msg]).
Definition Debugf (msg : string) (g : Pkg) : Pkg :=
  mkPkg (wkpool g) (localCache g) (afterGatherRun g) (agHeap g) (consumers g) (routes g)
        (logged g ++ [LogDebug msg]).

(** The collaborators outside the input's own file.  A constructor
    answers with an instance, or with an error and whatever pointer it
    returns along with it. *)
Class Collaborators : Type := {
  NewWorkerPool : WorkerPoolConfig -> result (option WorkerPool * error) WorkerPool;
  WorkerPool_Start : WorkerPool -> option error;
  NewStorage : StorageConfig -> result (option Storage * error) Storage;
  Storage_Enabled : Storage -> bool;
  RunConsumeWorker : Storage -> option error;
  HTTP_KEY : Z;
  ConvertMapEntriesToMap : MapEntries -> Values;
  proto_Unmarshal : bytes -> result error RequestPB;
  url_Parse : string -> result error URL;
  HostTags : GlobalTagger -> Tags;
  NopResponseWriter : ResponseWriter;
  httpStatusRespFunc : RespFunc;
  handleJaegerTrace : Handler;
  workerpool_HTTPWrapper : RespFunc -> option WorkerPool -> Handler -> Handler;
  HTTPStorageWrapper : Z -> RespFunc -> option Storage -> Handler -> Handler
}.

Context `{C : Collaborators}.

(** Modelled from the spec: [Storage.RegisterConsumer], whose source is
    not part of the input's file.  It binds exactly one replay function
    per key; registering a key that is already bound is an error and
    leaves the binding as it was. *)
Definition RegisterConsumer (s : Storage) (key : Z) (fn : Consumer)
           (reg : gmap (Storage * Z) Consumer) : gmap (Storage * Z) Consumer :=
  match reg !! (s, key) with
  | Some _ => reg
  | None => <[(s, key) := fn]> reg
  end.

Definition fresh_addr (h : gmap nat AfterGather) : nat := fresh (dom h).

(** Modelled from the spec: [itrace.NewAfterGather], whose source is not
    part of the input's file.  It is constructed from a logger, a
    feeder, extra tags and an optional retry interval, and starts with
    no filter.  The new object is allocated at a fresh address. *)
Definition NewAfterGather (retry : option Z) (tags : Tags) (fd : Feeder) (g : Pkg)
  : nat * Pkg :=
  let p := fresh_addr (agHeap g) in
  (p, set_agHeap (<[p := mkAfterGather retry tags fd []]> (agHeap g)) g).

(** Modelled from the spec: [AfterGather.AppendFilter], whose source is
    not part of the input's file.  It appends the filter to the chain of
    the object at address [p]. *)
Definition AppendFilter (p : nat) (f : Filter) (g : Pkg) : Pkg :=
  set_agHeap
    (alter (fun ag => mkAfterGather (agRetry ag) (agExtraTags ag) (agFeeder ag)
                                    (agFilters ag ++ [f]))
           p (agHeap g))
    g.

(** [httpapi.RegHTTPHandler(method, path, handler)]. *)
Definition httpapi_RegHTTPHandler (method path : string) (h : Handler) (g : Pkg) : Pkg :=
  set_routes (routes g ++ [{| routeMethod := method; routePath := path; routeHandler := h |}]) g.

(** The request rebuilt from a buffered message; [url.Parse] answers
    with a nil URL when it fails. *)
Definition rebuildRequest (reqpb : RequestPB) : Request :=
  {| Method := pbMethod reqpb;
     Proto := pbProto reqpb;
     ProtoMajor := pbProtoMajor reqpb;
     ProtoMinor := pbProtoMinor reqpb;
     Header := ConvertMapEntriesToMap (pbHeader reqpb);
     Body := pbBody reqpb;
     ContentLength := pbContentLength reqpb;
     TransferEncoding := pbTransferEncoding reqpb;
     Close := pbClose reqpb;
     Host := pbHost reqpb;
     Form := ConvertMapEntriesToMap (pbForm reqpb);
     PostForm := ConvertMapEntriesToMap (pbPostForm reqpb);
     RemoteAddr := pbRemoteAddr reqpb;
     RequestURI := pbRequestUri reqpb;
     URL_ := match url_Parse (pbUrl reqpb) with
             | Ok u => Some u
             | Err _ => None
             end |}.

(** The closure passed to [localCache.RegisterConsumer]. *)
Definition replayConsumer : Consumer :=
  fun buf w =>
    match proto_Unmarshal buf with
    | Err err => (Some err, [], w)
    | Ok reqpb =>
        let req := rebuildRequest reqpb in
        let parseLog :=
          match url_Parse (pbUrl reqpb) with
          | Ok _ => []
          | Err _ => [LogError "### parse raw URL: %s failed: %s"]
          end in
        let w' := handleJaegerTrace NopResponseWriter req w in
        (None,
         parseLog ++ [LogDebug "### process status: buffer-size: %dkb, cost: %dms, err: %v"],
         w')
    end.

(** [ipt.Sampler != nil && (rate >= 0 && rate <= 1)]. *)
Definition samplerConfigured (ipt : Input) : option Sampler :=
  match Sampler_ ipt with
  | Some smp =>
      if ge (SamplingRateGlobal smp) (Num 0) && le (SamplingRateGlobal smp) (Num 1)
      then Some smp else None
  | None => None
  end.

(** [localCache != nil && localCache.Enabled()]. *)
Definition cacheEnabled (g : Pkg) : bool :=
  match localCache g with
  | Some s => Storage_Enabled s
  | None => false
  end.

(** Modelled from the spec: [Sampler.Init], whose source is not part of
    the input's file.  It readies the sampler and returns its receiver;
    the rate the sampler applies is the configured one. *)
Definition Sampler_Init (smp : Sampler) : Sampler := smp.

(** [RegHTTPHandler], block by block.  First the worker pool. *)
Definition startWorkerPool (ipt : Input) (g : Pkg) : Pkg :=
  match WPConfig ipt with
  | Some cfg =>
      match NewWorkerPool cfg with
      | Err (p, _) => Errorf "### new worker-pool failed: %s" (set_wkpool p g)
      | Ok p =>
          let g := set_wkpool (Some p) g in
          match WorkerPool_Start p with
          | Some _ => Errorf "### start worker-pool failed: %s" g
          | None => g
          end
      end
  | None => g
  end.

(** The local cache and its consumer. *)
Definition startLocalCache (ipt : Input) (g : Pkg) : Pkg :=
  match LocalCacheConfig ipt with
  | Some cfg =>
      match NewStorage cfg with
      | Err (s, _) => Errorf "### new local-cache failed: %s" (set_localCache s g)
      | Ok s =>
          let g := set_localCache (Some s) g in
          let g := set_consumers (RegisterConsumer s HTTP_KEY replayConsumer (consumers g)) g in
          match RunConsumeWorker s with
          | Some _ => Errorf "### run local-cache consumer failed: %s" g
          | None => g
          end
      end
  | None => g
  end.

(** The [AfterGather], with a retry interval or without. *)
Definition newAfterGather (ipt : Input) (g : Pkg) : nat * Pkg :=
  if cacheEnabled g
  then NewAfterGather (Some (100 * Millisecond)) (HostTags (Tagger ipt)) (feeder ipt) g
  else NewAfterGather None (HostTags (Tagger ipt)) (feeder ipt) g.

(** The filters: the order of appending is the order of execution. *)
Definition appendFilters (ipt : Input) (afterGather : nat) (g : Pkg) : Pkg :=
  (* add close resource filter *)
  let g :=
    if negb (size (CloseResource ipt) =? 0)%nat
    then AppendFilter afterGather (CloseResource_Close (CloseResource ipt)) g
    else g in
  (* add error status penetration *)
  let g := AppendFilter afterGather PenetrateErrorTracing g in
  (* add rare resource keeper *)
  let g :=
    if KeepRareResource ipt
    then AppendFilter afterGather (KeepRareResource_Keep (KeepRareResource ipt) Hour) g
    else g in
  (* add sampler *)
  match samplerConfigured ipt with
  | Some smp => AppendFilter afterGather (Sampler_Sample (Sampler_Init smp)) g
  | None => g
  end.

(** The HTTP route. *)
Definition registerRoute (ipt : Input) (g : Pkg) : Pkg :=
  if negb (String.eqb (Endpoint ipt) EmptyString)
  then httpapi_RegHTTPHandler "POST" (Endpoint ipt)
         (workerpool_HTTPWrapper httpStatusRespFunc (wkpool g)
            (HTTPStorageWrapper HTTP_KEY httpStatusRespFunc (localCache g) handleJaegerTrace))
         g
  else g.

Definition RegHTTPHandler (ipt : Input) (g : Pkg) : Pkg :=
  let g := startWorkerPool ipt g in
  let g := startLocalCache ipt g in
  let '(afterGather, g) := newAfterGather ipt g in
  let g := set_afterGatherRun (Some afterGather) g in
  let g := appendFilters ipt afterGather g in
  let g := Debugf "### register handler for %s of agent %s" g in
  registerRoute ipt g.

(** The state the first two blocks leave. *)
Definition started (ipt : Input) (g : Pkg) : Pkg :=
  startLocalCache ipt (startWorkerPool ipt g).

(** An [AfterGather] with more filters at the end of its chain. *)
Definition with_filters (ag : AfterGather) (fs : list Filter) : AfterGather :=
  mkAfterGather (agRetry ag) (agExtraTags ag) (agFeeder ag) (agFilters ag ++ fs).

(** The chain that [afterGatherRun] points to. *)
Definition chain (g : Pkg) : option AfterGather :=
  afterGatherRun g ≫= fun p => agHeap g !! p.

(** The order the specification gives for the stages: close-resource
    (when rules are configured), error penetration (always), rare
    resource keeper (when enabled, with a window of one hour), sampler
    (when one is configured with a rate in [0,1]). *)
Definition specFilterOrder (ipt : Input) : list Filter :=
  (if negb (size (CloseResource ipt) =? 0)%nat
   then [CloseResource_Close (CloseResource ipt)] else [])
  ++ [PenetrateErrorTracing]
  ++ (if KeepRareResource ipt then [KeepRareResource_Keep true Hour] else [])
  ++ (match samplerConfigured ipt with
      | Some smp => [Sampler_Sample (Sampler_Init smp)]
      | None => []
      end).

End Input.

End Jaeger.

(** ** The span filter chain and the ingestion orchestrator

    None of [itrace.AfterGather.Run], the four filters, the storage and the
    HTTP wrappers has its source next to the input; this module follows the
    specification (sections 3, 4.2, 4.3, 4.4 and 7). *)
Module Pipeline.
Import F64 Jaeger.

(** Modelled from the spec: the [Span] of the data model (category, name,
    tag map, field map, timestamp, error flag), with the service and the
    resource name that the filters look at. *)
Record Span : Type := {
  spCategory : string;
  spName : string;
  spService : string;
  spResource : string;
  spTags : gmap string string;
  spFields : gmap string string;
  spTime : Z;
  spError : bool
}.

(** Modelled from the spec: force-keep is an explicit per-span annotation
    carried through the chain. *)
Record Marked : Type := {
  span : Span;
  forceKeep : bool
}.

(** Modelled from the spec: a span enters the chain without the
    annotation; [keep] sets it. *)
Definition unmarked (s : Span) : Marked := {| span := s; forceKeep := false |}.
Definition keep (a : Marked) : Marked := {| span := span a; forceKeep := true |}.

(** Modelled from the spec: the time-windowed cache of the rare resource
    keeper, the time at which each (service, resource) pair was last
    seen. *)
Definition Seen : Type := gmap (string * string) Z.

(** Modelled from the spec: how a run of the chain ends: the spans were
    fed, the feed was skipped for an empty result, or the feed failed. *)
Inductive RunResult (error : Type) : Type :=
| RunFed
| RunSkipped
| RunFeedFailed (e : error).
Arguments RunFed {error}.
Arguments RunSkipped {error}.
Arguments RunFeedFailed {error} e.

(** Modelled from the spec: the terminal states of one ingestion (the
    state machine of section 4.4 and the taxonomy of section 7). *)
Inductive Outcome : Type :=
| Fed
| Skipped
| Buffered
| Dropped
| DecodeError
| AdmissionRejected.

(** Modelled from the spec: the state the pipeline changes, that is the
    keeper's cache, what the feeder accepted, what the durable buffer
    holds, and the log. *)
Record World : Type := mkWorld {
  seen : Seen;
  fed : list (list Span);
  stored : list bytes;
  wlog : list LogEntry
}.

Definition set_seen (c : Seen) (w : World) : World :=
  mkWorld c (fed w) (stored w) (wlog w).
Definition add_fed (spans : list Span) (w : World) : World :=
  mkWorld (seen w) (fed w ++ [spans]) (stored w) (wlog w).
Definition add_stored (b : bytes) (w : World) : World :=
  mkWorld (seen w) (fed w) (stored w ++ [b]) (wlog w).
Definition add_log (e : LogEntry) (w : World) : World :=
  mkWorld (seen w) (fed w) (stored w) (wlog w ++ [e]).

Section Chain.

Context `{T : Types}.

(** Modelled from the spec: what the core treats as external, that is
    the regular-expression engine, the sampler's source of variates in
    [0,1), the downstream feeder at a given time, the bound on feed
    retries, the wire decoder, whether the pool admits a job submitted at
    a given time, the serializer of a request snapshot, and the capacity
    of the durable buffer in bytes. *)
Class Surroundings : Type := {
  matches : string -> string -> bool;
  draw : Span -> Q;
  draw_range : forall s, (0 <= draw s)%Q /\ (draw s < 1)%Q;
  downstream : Z -> list Span -> option error;
  retryLimit : nat;
  decode : Request -> result error (list Span);
  admits : WorkerPool -> Z -> bool;
  snapshot : Request -> bytes;
  capacity : Z
}.

Context {C : Collaborators} {Env : Surroundings}.

(** Modelled from the spec: the rules of CloseResource.  A per-service
    pattern set on resource names, the service "*" applying to all. *)
Definition closed (rules : gmap string (list string)) (s : Span) : bool :=
  existsb (fun p => matches p (spResource s))
          (default [] (rules !! spService s) ++ default [] (rules !! "*"%string)).

(** Modelled from the spec: [CloseResource.Close].  A matching span is
    dropped unconditionally. *)
Definition Close (rules : gmap string (list string)) (xs : list Marked) : list Marked :=
  List.filter (fun a => negb (closed rules (span a))) xs.

(** Modelled from the spec: [PenetrateErrorTracing].  It marks
    error-flagged spans as force-kept and drops nothing. *)
Definition Penetrate (xs : list Marked) : list Marked :=
  map (fun a => if spError (span a) then keep a else a) xs.

(** Modelled from the spec: the (service, resource) pair of a span. *)
Definition resourceKey (s : Span) : string * string := (spService s, spResource s).

(** Modelled from the spec: a pair is rare at time [now] when the cache
    has not seen it within the window. *)
Definition rare (c : Seen) (now window : Z) (s : Span) : bool :=
  match c !! resourceKey s with
  | None => true
  | Some t => window <=? now - t
  end.

(** Modelled from the spec: [KeepRareResource.Keep].  The first
    occurrence of a pair within the window is force-kept, a later one
    passes through as it came; the window slides, every occurrence is
    recorded. *)
Fixpoint Keep (now window : Z) (c : Seen) (xs : list Marked) : list Marked * Seen :=
  match xs with
  | [] => ([], c)
  | a :: rest =>
      let a' := if rare c now window (span a) then keep a else a in
      let c' := <[resourceKey (span a) := now]> c in
      let '(rest', c'') := Keep now window c' rest in
      (a' :: rest', c'')
  end.

(** Modelled from the spec: the outcome of the sampler for one span, its
    variate falling below the rate. *)
Definition sampled (rate : float64) (s : Span) : bool := lt (Num (draw s)) rate.

(** Modelled from the spec: [Sampler.Sample].  The keep probability
    applies to a span that is not force-kept; a force-kept span survives
    whatever the outcome. *)
Definition Sample (smp : Sampler) (xs : list Marked) : list Marked :=
  List.filter (fun a => forceKeep a || sampled (SamplingRateGlobal smp) (span a)) xs.

(** Modelled from the spec: one stage of the chain, at time [now]; the
    keeper is the only stage with a state of its own. *)
Definition runFilter (f : Filter) (now : Z) (c : Seen) (xs : list Marked)
  : list Marked * Seen :=
  match f with
  | CloseResource_Close rules => (Close rules xs, c)
  | PenetrateErrorTracing => (Penetrate xs, c)
  | KeepRareResource_Keep open window =>
      if open then Keep now window c xs else (xs, c)
  | Sampler_Sample smp => (Sample smp xs, c)
  end.

(** Modelled from the spec: the filters run in append order, each
    stage's output feeding the next stage's input. *)
Fixpoint runFilters (fs : list Filter) (now : Z) (c : Seen) (xs : list Marked)
  : list Marked * Seen :=
  match fs with
  | [] => (xs, c)
  | f :: rest =>
      let '(ys, c') := runFilter f now c xs in
      runFilters rest now c' ys
  end.

(** Modelled from the spec: the retry policy around the terminal feed.
    After a failure at time [t] the feed is tried again one interval
    later, at most [n] more times. *)
Fixpoint retryFeed (n : nat) (interval t : Z) (spans : list Span) (e : error)
  : option error :=
  match n with
  | O => Some e
  | S n' =>
      match downstream (t + interval) spans with
      | None => None
      | Some e' => retryFeed n' interval (t + interval) spans e'
      end
  end.

(** Modelled from the spec: the terminal feed, with the optional retry
    policy around it. *)
Definition feedSpans (retry : option Z) (now : Z) (spans : list Span) : option error :=
  match downstream now spans with
  | None => None
  | Some e =>
      match retry with
      | Some interval => retryFeed retryLimit interval now spans e
      | None => Some e
      end
  end.

(** Modelled from the spec: [AfterGather.Run].  After the last stage a
    non-empty result is handed to the feeder, an empty one skips the
    feed. *)
Definition Run (ag : AfterGather) (now : Z) (spans : list Span) (w : World)
  : RunResult error * World :=
  let '(out, c) := runFilters (agFilters ag) now (seen w) (map unmarked spans) in
  let w := set_seen c w in
  match out with
  | [] => (RunSkipped, w)
  | _ =>
      match feedSpans (agRetry ag) now (map span out) with
      | None => (RunFed, add_fed (map span out) w)
      | Some e => (RunFeedFailed e, w)
      end
  end.

(** Modelled from the spec: the aggregate stored bytes. *)
Definition storedBytes (q : list bytes) : Z :=
  fold_right (fun b acc => Z.of_nat (length b) + acc) 0 q.

(** Modelled from the spec: [Storage.Put] under the default policy.  A
    write that would take the stored bytes over the capacity is
    rejected. *)
Definition Put (payload : bytes) (w : World) : option World :=
  if storedBytes (stored w) + Z.of_nat (length payload) <=? capacity
  then Some (add_stored payload w)
  else None.

(** Modelled from the spec: the ingestion orchestrator.  Received,
    decoded, admitted by the pool, filtered, fed; a feed failure is
    buffered when the storage is enabled and takes the write, and is
    logged and dropped otherwise. *)
Definition ingest (g : Pkg) (now : Z) (req : Request) (w : World) : Outcome * World :=
  match decode req with
  | Err _ => (DecodeError, add_log (LogError "decode failed") w)
  | Ok spans =>
      if match wkpool g with Some p => admits p now | None => true end
      then
        match chain g with
        | None => (Dropped, add_log (LogError "no filter chain") w)
        | Some ag =>
            match Run ag now spans w with
            | (RunFed, w') => (Fed, w')
            | (RunSkipped, w') => (Skipped, w')
            | (RunFeedFailed _, w') =>
                if cacheEnabled g
                then
                  match Put (snapshot req) w' with
                  | Some w'' => (Buffered, w'')
                  | None => (Dropped, add_log (LogError "feed failed, storage full") w')
                  end
                else (Dropped, add_log (LogError "feed failed") w')
            end
        end
      else (AdmissionRejected, w)
  end.

End Chain.

End Pipeline.


(** ** Concrete surroundings

    One host, one set of collaborators and a few inputs on which the
    definitions above can be run. *)
Module Samples.
Import F64.

(** *** disk *)
Definition linuxHost : Disk.Host :=
  Disk.Build_Host "linux"
    (fun _ => Ok ["sda"%string])
    (fun name => Ok [name])
    (fun _ => Err "no mapper"%string).

Definition rootUsage : Disk.UsageStat :=
  {| Disk.Fstype := "ext4"; Disk.Total := 100; Disk.Free := 60; Disk.Used := 40;
     Disk.InodesTotal := 5000000; Disk.InodesUsed := 1000000; Disk.InodesFree := 4000000;
     Disk.InodesUsedPercent := Num 20 |}.

(** A dummy file system: no blocks at all. *)
Definition procUsage : Disk.UsageStat :=
  {| Disk.Fstype := "proc"; Disk.Total := 0; Disk.Free := 0; Disk.Used := 0;
     Disk.InodesTotal := 0; Disk.InodesUsed := 0; Disk.InodesFree := 0;
     Disk.InodesUsedPercent := Num 0 |}.

(** [Used + Free] is a multiple of 2^64, which [uint64] addition takes
    to zero. *)
Definition wrappedUsage : Disk.UsageStat :=
  {| Disk.Fstype := "xfs"; Disk.Total := 2 ^ 63; Disk.Free := 2 ^ 63; Disk.Used := 2 ^ 63;
     Disk.InodesTotal := 0; Disk.InodesUsed := 0; Disk.InodesFree := 0;
     Disk.InodesUsedPercent := Num 0 |}.

(** [Total] is set but [Used + Free] is zero. *)
Definition emptyUsage : Disk.UsageStat :=
  {| Disk.Fstype := "tmpfs"; Disk.Total := 8; Disk.Free := 0; Disk.Used := 0;
     Disk.InodesTotal := 0; Disk.InodesUsed := 0; Disk.InodesFree := 0;
     Disk.InodesUsedPercent := Num 0 |}.

Definition someDisks : list (option Disk.UsageStat) :=
  [Some rootUsage; None; Some procUsage; Some emptyUsage].

Definition somePartitions : list Disk.PartitionStat :=
  [ {| Disk.Device := "/dev/sda1"; Disk.Mountpoint := "/" |};
    {| Disk.Device := "/dev/sdb1"; Disk.Mountpoint := "/mnt" |};
    {| Disk.Device := "proc"; Disk.Mountpoint := "/proc" |};
    {| Disk.Device := "tmpfs"; Disk.Mountpoint := "/run" |} ].

Definition diskInput : Disk.Input :=
  Disk.mkInput false [] [("host"%string, "h1"%string)] (Some ∅).

(** *** otelcol *)
Definition otelTypes : Otelcol.Types :=
  Otelcol.Build_Types string string string string string bool (list string).

(** A handler whose [Feed] records the points and fails all the same. *)
Definition failingFeed : @Otelcol.OtelAPIWrite otelTypes :=
  @Otelcol.Build_OtelAPIWrite otelTypes
    (fun (_ _ : string) (pts : list string) (w : list string) =>
       (Some "feed failed"%string, w ++ pts)).

(** The value [true] implements the interface, [false] does not; a
    request parses into one point, the request itself, unless it is
    empty. *)
Definition otelHttpapi : @Otelcol.Httpapi otelTypes :=
  @Otelcol.Build_Httpapi otelTypes
    "invalid API handler"%string
    (fun v : bool => if v then Some failingFeed else None)
    (fun (req : string) (w : list string) =>
       if String.eqb req EmptyString
       then (Err "empty body"%string, w)
       else (Ok (@Otelcol.Build_APIWriteResult otelTypes [req] "metric"%string "ok"%string),
             w)).

(** *** jaeger *)
Import Jaeger Pipeline.

Definition jaegerTypes : Types :=
  Build_Types unit unit bool unit
              (list (string * string)) (list (string * string))
              string string (list (string * list string)) unit unit (list string).

Definition messageOf (buf : bytes) : @RequestPB jaegerTypes :=
  @Build_RequestPB jaegerTypes
    "POST" "HTTP/1.1" 1 1
    [("Content-Type"%string, ["application/x-thrift"%string])]
    buf (Z.of_nat (length buf)) [] false "localhost:9529" [] []
    "10.0.0.1:4000" "/apis/traces"
    (match buf with
     | [_] => EmptyString
     | _ => "/apis/traces"
     end).

(** The storage at path [true] opens, at address 7; an empty payload does
    not unmarshal; the empty string is not a URL; the handler records the
    request URI it was given; the wrappers are transparent. *)
Definition jaegerCollaborators : @Collaborators jaegerTypes :=
  @Build_Collaborators jaegerTypes
    (fun _ : unit => Ok tt)
    (fun _ : unit => None)
    (fun path : bool => if path then Ok 7%nat else Err (None, "open failed"%string))
    (fun _ => true)
    (fun _ => None)
    1
    (fun entries : list (string * list string) => (list_to_map entries : Values))
    (fun buf : bytes =>
       match buf with
       | [] => Err "empty payload"%string
       | _ => Ok (messageOf buf)
       end)
    (fun s : string => if String.eqb s EmptyString then Err "empty url"%string else Ok s)
    (fun tags : list (string * string) => tags)
    tt
    tt
    (fun (_ : unit) (req : @Request jaegerTypes) (w : list string) => w ++ [RequestURI req])
    (fun _ _ h => h)
    (fun _ _ _ h => h).

Definition spanOf (service resource : string) (err : bool) : Span :=
  {| spCategory := "tracing"; spName := "jaeger"; spService := service;
     spResource := resource; spTags := ∅; spFields := ∅; spTime := 0; spError := err |}.

(** Every variate is one half; the downstream is unavailable during the
    first second; a request decodes into one span per body byte, the first one
    error-flagged. *)
Definition jaegerSurroundings : @Surroundings jaegerTypes :=
  @Build_Surroundings jaegerTypes
    String.eqb
    (fun _ => (1 # 2)%Q)
    (fun _ => conj (proj1 (Qle_bool_iff 0 (1 # 2)) eq_refl)
                   (proj2 (Qlt_alt (1 # 2) 1) eq_refl))
    (fun (t : Z) (_ : list Span) =>
       if t <? Second then Some "unavailable"%string else None)
    3%nat
    (fun req : @Request jaegerTypes =>
       match Body req with
       | [] => Err "no span"%string
       | _ :: rest =>
           Ok (spanOf "web" "GET /" true
                      :: map (fun _ => spanOf "web" "GET /" false) rest)
       end)
    (fun _ _ => true)
    (fun req : @Request jaegerTypes => Body req)
    1024.

Definition emptyPkg : @Pkg jaegerTypes :=
  @mkPkg jaegerTypes None None None ∅ ∅ [] [].

Definition emptyWorld : World := mkWorld ∅ [] [] [].

(** No optional stage, no pool, no storage. *)
Definition plainInput : @Input jaegerTypes :=
  @Build_Input jaegerTypes "/apis/traces" false ∅ None None None tt
               [("host"%string, "h1"%string)].

Definition zeroSampler : Sampler := {| SamplingRateGlobal := Num 0 |}.

(** Sampler at rate 0, a pool, a storage that opens. *)
Definition sampledInput : @Input jaegerTypes :=
  @Build_Input jaegerTypes "/apis/traces" false ∅ (Some zeroSampler)
               (Some tt) (Some true) tt [].

(** Sampler at rate 0 behind the rare resource keeper. *)
Definition keeperInput : @Input jaegerTypes :=
  @Build_Input jaegerTypes EmptyString true ∅ (Some zeroSampler) None None tt [].

(** Every stage configured; the storage does not open. *)
Definition fullInput : @Input jaegerTypes :=
  @Build_Input jaegerTypes "/apis/traces" true
               {[ "*"%string := ["/health"%string] ]}
               (Some {| SamplingRateGlobal := Num 1 |})
               (Some tt) (Some false) tt [].

Definition somePayload : bytes := [Byte.x01; Byte.x02; Byte.x03].

(** A payload whose stored URL does not parse. *)
Definition badUrlPayload : bytes := [Byte.x01].

Definition someSpans : list Span :=
  [spanOf "web" "GET /" false; spanOf "web" "GET /" true;
   spanOf "db" "SELECT" true; spanOf "db" "SELECT" false].

Definition liveRequest : @Request jaegerTypes :=
  @rebuildRequest jaegerTypes jaegerCollaborators (messageOf somePayload).

End Samples.

(** * Properties *)

(** ** disk: [collect] *)
Section DiskFacts.
Import F64 Disk.

Lemma Get_app_new (x : KVs) (kv : KV) (k : string) :
  Get (x ++ [kv]) k =
  match Get x k with
  | Some v => Some v
  | None => if String.eqb (Key kv) k then Some (Val kv) else None
  end.
Proof.
  induction x as [|kv' rest IH]; simpl.
  - reflexivity.
  - destruct (String.eqb (Key kv') k); [reflexivity|exact IH].
Qed.

Lemma Get_override_other (x : KVs) (kv : KV) (k : string) :
  Key kv <> k -> Get (override x kv) k = Get x k.
Proof.
  intros Hne. induction x as [|kv' rest IH]; simpl; [reflexivity|].
  destruct (String.eqb (Key kv') (Key kv)) eqn:E; simpl.
  - apply String.eqb_eq in E.
    destruct (String.eqb (Key kv) k) eqn:E1.
    + apply String.eqb_eq in E1. contradiction.
    + rewrite E, E1. reflexivity.
  - destruct (String.eqb (Key kv') k); [reflexivity|exact IH].
Qed.

(** Adding another key leaves the value of [k] alone. *)
Lemma Get_Add_other (x : KVs) (k k' : string) (v : FieldValue) (isTag force : bool) :
  k' <> k -> Get (Add x k' v isTag force) k = Get x k.
Proof.
  intros Hne. unfold Add.
  destruct (hasKey x k').
  - destruct force; [|reflexivity].
    apply Get_override_other. exact Hne.
  - rewrite Get_app_new. simpl.
    destruct (Get x k); [reflexivity|].
    destruct (String.eqb k' k) eqn:E; [|reflexivity].
    apply String.eqb_eq in E. contradiction.
Qed.

(** A tag never replaces a value that is already there. *)
Lemma Get_AddTag_keeps (x : KVs) (k k' v' : string) (v : FieldValue) :
  Get x k = Some v -> Get (AddTag x k' v') k = Some v.
Proof.
  intros Hget. unfold AddTag, Add.
  destruct (hasKey x k'); [exact Hget|].
  rewrite Get_app_new, Hget. reflexivity.
Qed.

Lemma Get_addTags_keeps (tags : list (string * string)) (x : KVs) (k : string) (v : FieldValue) :
  Get x k = Some v -> Get (addTags x tags) k = Some v.
Proof.
  revert x. induction tags as [|[tk tv] rest IH]; intros x Hget; simpl.
  - exact Hget.
  - apply IH. apply Get_AddTag_keeps. exact Hget.
Qed.

Lemma Get_Add_discarded_other (x : KVs) (k k' : string) (v : FieldValue) (isTag force : bool) :
  k' <> k -> Get (Add_discarded x k' v isTag force) k = Get x k.
Proof.
  intros Hne. unfold Add_discarded.
  destruct (hasKey x k'); [|reflexivity].
  apply Get_Add_other. exact Hne.
Qed.

Context `{H : Host}.

(** [findDisk] touches the disk cache only. *)
Lemma findDisk_collectCache (now : Z) (partition : string) (ipt : Input) :
  collectCache (snd (findDisk now partition ipt)) = collectCache ipt
  /\ mergedTags (snd (findDisk now partition ipt)) = mergedTags ipt.
Proof.
  unfold findDisk.
  destruct (negb (String.prefix "/dev/" partition)); [split; reflexivity|].
  destruct (diskCache ipt) as [cache|]; [|split; reflexivity].
  destruct (cache !! TrimPrefix partition "/dev/") as [e|].
  - destruct (now - LastUpdated e <? 60 * second); [split; reflexivity|].
    destruct (if String.prefix "dm-" (TrimPrefix partition "/dev/")
              then findDiskFromDM (TrimPrefix partition "/dev/")
              else findDiskFromBlock (TrimPrefix partition "/dev/"));
      split; reflexivity.
  - destruct (if String.prefix "dm-" (TrimPrefix partition "/dev/")
              then findDiskFromDM (TrimPrefix partition "/dev/")
              else findDiskFromBlock (TrimPrefix partition "/dev/"));
      split; reflexivity.
Qed.

Lemma osKVs_keeps (now : Z) (part : PartitionStat) (du : UsageStat)
      (kvs : KVs) (ipt : Input) (v : FieldValue) :
  Get kvs "used_percent" = Some v ->
  Get (fst (osKVs now part du kvs ipt)) "used_percent" = Some v
  /\ collectCache (snd (osKVs now part du kvs ipt)) = collectCache ipt
  /\ mergedTags (snd (osKVs now part du kvs ipt)) = mergedTags ipt.
Proof.
  intros Hget. unfold osKVs.
  destruct (String.eqb GOOS OSLinux || String.eqb GOOS OSDarwin); [|auto].
  pose proof (findDisk_collectCache now (Device part) ipt) as [Hc Hm].
  destruct (findDisk now (Device part) ipt) as [[devs|e] ipt']; simpl in Hc, Hm.
  - destruct (EnableLVMMapperPath ipt' && String.prefix "/dev/dm-" (Device part)).
    + destruct (GetMapperPath (Device part)); simpl; (split; [|auto]).
      * rewrite Get_Add_discarded_other by discriminate.
        rewrite !Get_Add_other by discriminate. exact Hget.
      * rewrite !Get_Add_other by discriminate. exact Hget.
    + simpl. split; [|auto].
      rewrite !Get_Add_other by discriminate. exact Hget.
  - simpl. split; [|auto].
    rewrite !Get_Add_other by discriminate. exact Hget.
Qed.

(** One iteration appends exactly one point, carrying [usedPercent]. *)
Lemma collectOne_appends (ptTS now : Z) (part : PartitionStat) (du : UsageStat) (ipt : Input) :
  exists pt,
    collectCache (collectOne ptTS now part du ipt) = collectCache ipt ++ [pt]
    /\ carries_used_percent pt du.
Proof.
  unfold collectOne, carries_used_percent.
  assert (Hbase : Get (baseKVs part du) "used_percent" = Some (VFloat (usedPercent du)))
    by reflexivity.
  pose proof (osKVs_keeps now part du (baseKVs part du) ipt _ Hbase) as (Hk & Hc & Hm).
  destruct (osKVs now part du (baseKVs part du) ipt) as [kvs ipt1]; simpl in *.
  eexists. split; [rewrite Hc; reflexivity|].
  simpl. apply Get_addTags_keeps. exact Hk.
Qed.

(** The loop does not panic while the partitions reach as far as the
    usage entries, and appends one point per usable entry. *)
Lemma collectLoop_points (ptTS now : Z) (partitions : list PartitionStat)
      (disks : list (option UsageStat)) :
  forall (index : nat) (ipt : Input),
    (index + length disks <= length partitions)%nat ->
    exists ipt' new,
      collectLoop ptTS now partitions index disks ipt = Some ipt'
      /\ collectCache ipt' = collectCache ipt ++ new
      /\ Forall2 carries_used_percent new (usable disks).
Proof.
  induction disks as [|d rest IH]; intros index ipt Hlen; simpl in *.
  - exists ipt, []. rewrite app_nil_r. repeat split. constructor.
  - assert (Hidx : exists part, partitions !! index = Some part).
    { destruct (partitions !! index) eqn:E; eauto.
      apply lookup_ge_None in E. lia. }
    destruct Hidx as [part Hpart].
    destruct d as [du|].
    + destruct (Total du =? 0).
      * apply IH. lia.
      * rewrite Hpart.
        destruct (collectOne_appends ptTS now part du ipt) as (pt & Hc & Hg).
        destruct (IH (S index) (collectOne ptTS now part du ipt)) as (ipt' & new & Hl & Hcc & Hf);
          [lia|].
        exists ipt', (pt :: new). split; [exact Hl|]. split.
        -- rewrite Hcc, Hc, <- app_assoc. reflexivity.
        -- constructor; assumption.
    + rewrite Hpart. apply IH. lia.
Qed.

Lemma elem_of_usable (disks : list (option UsageStat)) (du : UsageStat) :
  du ∈ usable disks <-> Some du ∈ disks /\ Total du <> 0.
Proof.
  unfold usable. rewrite list_elem_of_omap. split.
  - intros (d & Hin & Hd). destruct d as [u|]; [|discriminate].
    destruct (Total u =? 0) eqn:E; [discriminate|].
    inversion Hd; subst. split; [exact Hin|]. apply Z.eqb_neq. exact E.
  - intros [Hin Hne]. exists (Some du). split; [exact Hin|].
    apply Z.eqb_neq in Hne. rewrite Hne. reflexivity.
Qed.

(** Under the guard the denominator is not zero and the division is an
    ordinary one. *)
Lemma usedPercent_guarded (du : UsageStat) :
  (0 <? wrap64 (Used du + Free du)) = true ->
  ~ (inject_Z (Used du) + inject_Z (Free du) == 0)%Q
  /\ usedPercent du =
     Num (inject_Z (Used du) / (inject_Z (Used du) + inject_Z (Free du)) * 100)%Q.
Proof.
  intros Hg.
  assert (Hne : ~ (inject_Z (Used du) + inject_Z (Free du) == 0)%Q).
  { intros Heq.
    assert (Hz : Used du + Free du = 0)
      by (unfold Qeq in Heq; simpl in Heq; lia).
    unfold wrap64 in Hg. rewrite Hz in Hg. discriminate. }
  split; [exact Hne|].
  unfold usedPercent. rewrite Hg. simpl.
  unfold is_zero.
  destruct (Qeq_bool (inject_Z (Used du) + inject_Z (Free du)) 0) eqn:E.
  - apply Qeq_bool_iff in E. contradiction.
  - reflexivity.
Qed.

(** C10: [collect] builds one point for each usage entry that is non-nil
    and has a non-zero [Total], and for no other entry; the point's
    [used_percent] is [Used / (Used + Free) * 100], computed only under the
    guard [Used + Free > 0], in which case the denominator is not zero,
    and is 0 otherwise; it is a finite number in both cases. *)
Theorem collect_used_percent (ptTS now : Z) (disks : list (option UsageStat))
        (partitions : list PartitionStat) (ipt : Input) :
  (length disks <= length partitions)%nat ->
  exists ipt',
    collect ptTS now (Ok (disks, partitions)) ipt = Some (None, ipt')
    /\ Forall2 carries_used_percent (collectCache ipt') (usable disks)
    /\ (forall du, du ∈ usable disks <-> Some du ∈ disks /\ Total du <> 0)
    /\ (forall du,
           finite (usedPercent du) = true
           /\ ((0 <? wrap64 (Used du + Free du)) = true ->
               ~ (inject_Z (Used du) + inject_Z (Free du) == 0)%Q
               /\ usedPercent du =
                  Num (inject_Z (Used du) / (inject_Z (Used du) + inject_Z (Free du)) * 100)%Q)
           /\ ((0 <? wrap64 (Used du + Free du)) = false -> usedPercent du = Num 0)).
Proof.
  intros Hlen. unfold collect.
  destruct (collectLoop_points ptTS now partitions disks 0 (set_collectCache [] ipt))
    as (ipt' & new & Hl & Hc & Hf); [simpl; lia|].
  exists ipt'. rewrite Hl. split; [reflexivity|]. split.
  { rewrite Hc. simpl. exact Hf. }
  split; [intros du; apply elem_of_usable|].
  intros du. split; [|split].
  - destruct (0 <? wrap64 (Used du + Free du)) eqn:E.
    + destruct (usedPercent_guarded du E) as [_ ->]. reflexivity.
    + unfold usedPercent. rewrite E. reflexivity.
  - apply usedPercent_guarded.
  - intros E. unfold usedPercent. rewrite E. reflexivity.
Qed.

End DiskFacts.

Section DiskRuns.
Import F64 Disk Samples.

(** Four entries, two points: the nil entry and the dummy file system
    are skipped. *)
Example collect_sample_points :
  (fun r => match r with
            | Some (None, ipt') =>
                map (fun pt => (Get (ptKVs pt) "device", Get (ptKVs pt) "used_percent"))
                    (collectCache ipt')
            | _ => []
            end)
    (collect (H := linuxHost) 7 0 (Ok (someDisks, somePartitions)) diskInput)
  = [ (Some (VString "/dev/sda1"), Some (VFloat (Num (4000 # 100))));
      (Some (VString "tmpfs"), Some (VFloat (Num 0))) ].
Proof. vm_compute. reflexivity. Qed.

(** The guard is taken on the wrapped sum. *)
Example usedPercent_wrapped_sum : usedPercent wrappedUsage = Num 0.
Proof. reflexivity. Qed.

(** A usage entry beyond the partitions panics. *)
Example collect_sample_panic :
  collect (H := linuxHost) 7 0 (Ok ([Some rootUsage], [])) diskInput = None.
Proof. reflexivity. Qed.

Lemma collect_used_percent_witness :
  (length someDisks <= length somePartitions)%nat
  /\ exists ipt',
      collect (H := linuxHost) 7 0 (Ok (someDisks, somePartitions)) diskInput
      = Some (None, ipt')
      /\ Forall2 carries_used_percent (collectCache ipt') (usable someDisks).
Proof.
  assert (Hlen : (length someDisks <= length somePartitions)%nat) by (simpl; lia).
  split; [exact Hlen|].
  destruct (collect_used_percent (H := linuxHost) 7 0 someDisks somePartitions diskInput Hlen)
    as (ipt' & Hc & Hf & _).
  exists ipt'. split; [exact Hc|exact Hf].
Defined.

End DiskRuns.

(** ** otelcol: [ApiWrite] *)
Section ApiWriteFacts.
Import Otelcol.

Context `{T : Types} {A : Httpapi}.

Lemma ApiWrite_one_handler (x : list Any) (v : Any) (h : OtelAPIWrite) :
  x = [v] -> asOtelAPIWrite v = Some h ->
  negb (length x =? 1)%nat = false /\ x !! 0%nat ≫= asOtelAPIWrite = Some h.
Proof. intros -> Hh. simpl. split; [reflexivity|exact Hh]. Qed.

Lemma ApiWrite_no_handler (x : list Any) :
  ~ (exists v h, x = [v] /\ asOtelAPIWrite v = Some h) ->
  negb (length x =? 1)%nat = true \/ x !! 0%nat ≫= asOtelAPIWrite = None.
Proof.
  intros Hno.
  destruct x as [|v [|v' rest]]; simpl; auto.
  right. destruct (asOtelAPIWrite v) as [h|] eqn:E; [|reflexivity].
  exfalso. apply Hno. eauto.
Qed.

(** C9: [ApiWrite] answers [ErrInvalidAPIHandler] whenever its variadic
    arguments are not exactly one value implementing [OtelAPIWrite]; when
    the parse [APIV1Write] succeeds, it calls the handler's [Feed] only if
    the parsed point list is non-empty, and it returns the parsed response
    body with a nil error whatever that [Feed] call returns. *)
Theorem ApiWrite_spec (x : list Any) (req : Request) (w : W) :
  (~ (exists v h, x = [v] /\ asOtelAPIWrite v = Some h) ->
   ApiWrite x req w =
   {| retBody := None; retErr := Some ErrInvalidAPIHandler; feedCalls := []; world := w |})
  /\ (forall v h wr w1,
         x = [v] -> asOtelAPIWrite v = Some h ->
         APIV1Write req w = (Ok wr, w1) ->
         retBody (ApiWrite x req w) = Some (RespBody_ wr)
         /\ retErr (ApiWrite x req w) = None
         /\ (Points wr = [] ->
             feedCalls (ApiWrite x req w) = [] /\ world (ApiWrite x req w) = w1)
         /\ (Points wr <> [] ->
             feedCalls (ApiWrite x req w) =
             [{| fcRequest := req; fcCategory := Category_ wr; fcPoints := Points wr |}]
             /\ world (ApiWrite x req w) = snd (Feed h req (Category_ wr) (Points wr) w1))).
Proof.
  split.
  - intros Hno. unfold ApiWrite.
    destruct (ApiWrite_no_handler x Hno) as [E|E].
    + rewrite E. reflexivity.
    + destruct (negb (length x =? 1)%nat); [reflexivity|].
      rewrite E. reflexivity.
  - intros v h wr w1 Hx Hh Hparse.
    destruct (ApiWrite_one_handler x v h Hx Hh) as [E1 E2].
    unfold ApiWrite. rewrite E1, E2, Hparse.
    destruct (Points wr) as [|pt pts] eqn:Hp; simpl.
    + split; [reflexivity|]. split; [reflexivity|]. split.
      * intros _. split; reflexivity.
      * intros Hne. contradiction.
    + destruct (Feed h req (Category_ wr) (pt :: pts) w1) as [e w2] eqn:Hf; simpl.
      split; [reflexivity|]. split; [reflexivity|]. split.
      * intros Hnil. discriminate.
      * intros _. split; reflexivity.
Qed.

End ApiWriteFacts.

Section ApiWriteRuns.
Import Otelcol Samples.

(** Two handlers are one too many, also when both are valid. *)
Example ApiWrite_two_handlers :
  retErr (ApiWrite (T := otelTypes) (A := otelHttpapi) [true; true] "cpu 1"%string [])
  = Some "invalid API handler"%string.
Proof. reflexivity. Qed.

Example ApiWrite_no_argument :
  retErr (ApiWrite (T := otelTypes) (A := otelHttpapi) [] "cpu 1"%string [])
  = Some "invalid API handler"%string.
Proof. reflexivity. Qed.

(** A parse error is returned as it is, and nothing is fed. *)
Example ApiWrite_parse_error :
  ApiWrite (T := otelTypes) (A := otelHttpapi) [true] EmptyString [] =
  @Build_ApiOut otelTypes None (Some "empty body"%string) [] [].
Proof. reflexivity. Qed.

Lemma ApiWrite_spec_witness :
  retBody (ApiWrite (T := otelTypes) (A := otelHttpapi) [true] "cpu 1"%string [])
  = Some "ok"%string
  /\ retErr (ApiWrite (T := otelTypes) (A := otelHttpapi) [true] "cpu 1"%string []) = None
  /\ world (ApiWrite (T := otelTypes) (A := otelHttpapi) [true] "cpu 1"%string [])
     = ["cpu 1"%string]
  /\ retErr (ApiWrite (T := otelTypes) (A := otelHttpapi) [false] "cpu 1"%string [])
     = Some "invalid API handler"%string.
Proof.
  destruct (ApiWrite_spec (T := otelTypes) (A := otelHttpapi) [true] "cpu 1"%string [])
    as [_ Hok].
  destruct (Hok true failingFeed
                (@Build_APIWriteResult otelTypes ["cpu 1"%string] "metric"%string "ok"%string)
                [] eq_refl eq_refl eq_refl)
    as (Hbody & Herr & _ & Hfeed).
  destruct (Hfeed ltac:(discriminate)) as [_ Hworld].
  destruct (ApiWrite_spec (T := otelTypes) (A := otelHttpapi) [false] "cpu 1"%string [])
    as [Hbad _].
  split; [exact Hbody|]. split; [exact Herr|]. split; [exact Hworld|].
  rewrite Hbad; [reflexivity|].
  intros (v & h & Hx & Hh). inversion Hx; subst v. discriminate Hh.
Defined.

End ApiWriteRuns.

(** ** jaeger: what [RegHTTPHandler] builds *)
Section RegHTTPHandlerFacts.
Import F64 Jaeger.

Context `{T : Types} {C : Collaborators}.

Lemma AppendFilter_lookup (p : nat) (f : Filter) (g : Pkg) (ag : AfterGather) :
  agHeap g !! p = Some ag ->
  agHeap (AppendFilter p f g) !! p = Some (with_filters ag [f]).
Proof.
  intros Hp. unfold AppendFilter. simpl.
  rewrite lookup_alter_eq, Hp. reflexivity.
Qed.

Lemma with_filters_nil (ag : AfterGather) : with_filters ag [] = ag.
Proof. destruct ag. unfold with_filters. simpl. rewrite app_nil_r. reflexivity. Qed.

Lemma with_filters_app (ag : AfterGather) (fs1 fs2 : list Filter) :
  with_filters (with_filters ag fs1) fs2 = with_filters ag (fs1 ++ fs2).
Proof. unfold with_filters. simpl. rewrite app_assoc. reflexivity. Qed.

(** The four appends, on the object every one of them mutates. *)
Lemma appendFilters_lookup (ipt : Input) (p : nat) (g : Pkg) (ag : AfterGather) :
  agHeap g !! p = Some ag ->
  agHeap (appendFilters ipt p g) !! p = Some (with_filters ag (specFilterOrder ipt)).
Proof.
  intros Hp. unfold appendFilters, specFilterOrder.
  set (close := negb (size (CloseResource ipt) =? 0)%nat).
  assert (H1 : agHeap (if close
                       then AppendFilter p (CloseResource_Close (CloseResource ipt)) g
                       else g) !! p
               = Some (with_filters ag (if close
                                        then [CloseResource_Close (CloseResource ipt)]
                                        else []))).
  { destruct close.
    - apply AppendFilter_lookup. exact Hp.
    - rewrite with_filters_nil. exact Hp. }
  revert H1.
  generalize (if close then AppendFilter p (CloseResource_Close (CloseResource ipt)) g else g).
  generalize (if close then [CloseResource_Close (CloseResource ipt)] else []).
  intros fs1 g1 H1.
  pose proof (AppendFilter_lookup p PenetrateErrorTracing g1 _ H1) as H2.
  rewrite with_filters_app in H2.
  revert H2. generalize (AppendFilter p PenetrateErrorTracing g1). intros g2 H2.
  assert (H3 : agHeap (if KeepRareResource ipt
                       then AppendFilter p (KeepRareResource_Keep (KeepRareResource ipt) Hour) g2
                       else g2) !! p
               = Some (with_filters ag
                         (fs1 ++ [PenetrateErrorTracing]
                              ++ (if KeepRareResource ipt
                                  then [KeepRareResource_Keep true Hour] else [])))).
  { destruct (KeepRareResource ipt).
    - rewrite (AppendFilter_lookup p _ g2 _ H2), with_filters_app, <- app_assoc.
      reflexivity.
    - rewrite app_nil_r. exact H2. }
  revert H3.
  generalize (if KeepRareResource ipt
              then AppendFilter p (KeepRareResource_Keep (KeepRareResource ipt) Hour) g2
              else g2).
  intros g3 H3.
  destruct (samplerConfigured ipt) as [smp|].
  - rewrite (AppendFilter_lookup p _ g3 _ H3), with_filters_app.
    rewrite <- !app_assoc. reflexivity.
  - rewrite !app_nil_r. exact H3.
Qed.

Lemma appendFilters_globals (ipt : Input) (p : nat) (g : Pkg) :
  wkpool (appendFilters ipt p g) = wkpool g
  /\ localCache (appendFilters ipt p g) = localCache g
  /\ afterGatherRun (appendFilters ipt p g) = afterGatherRun g
  /\ consumers (appendFilters ipt p g) = consumers g
  /\ routes (appendFilters ipt p g) = routes g.
Proof.
  unfold appendFilters.
  destruct (negb (size (CloseResource ipt) =? 0)%nat), (KeepRareResource ipt),
    (samplerConfigured ipt); repeat split; reflexivity.
Qed.

Lemma registerRoute_globals (ipt : Input) (g : Pkg) :
  wkpool (registerRoute ipt g) = wkpool g
  /\ localCache (registerRoute ipt g) = localCache g
  /\ afterGatherRun (registerRoute ipt g) = afterGatherRun g
  /\ agHeap (registerRoute ipt g) = agHeap g
  /\ consumers (registerRoute ipt g) = consumers g.
Proof.
  unfold registerRoute.
  destruct (negb (String.eqb (Endpoint ipt) EmptyString)); repeat split; reflexivity.
Qed.

Lemma newAfterGather_spec (ipt : Input) (g : Pkg) :
  let '(p, g') := newAfterGather ipt g in
  agHeap g' !! p =
  Some (mkAfterGather (if cacheEnabled g then Some (100 * Millisecond) else None)
                      (HostTags (Tagger ipt)) (feeder ipt) [])
  /\ wkpool g' = wkpool g
  /\ localCache g' = localCache g
  /\ consumers g' = consumers g
  /\ routes g' = routes g.
Proof.
  unfold newAfterGather, NewAfterGather.
  destruct (cacheEnabled g); simpl; rewrite lookup_insert_eq; repeat split; reflexivity.
Qed.

(** The globals and the chain after [RegHTTPHandler]. *)
Lemma RegHTTPHandler_chain (ipt : Input) (g : Pkg) :
  chain (RegHTTPHandler ipt g) =
  Some (mkAfterGather
          (if cacheEnabled (RegHTTPHandler ipt g) then Some (100 * Millisecond) else None)
          (HostTags (Tagger ipt)) (feeder ipt) (specFilterOrder ipt))
  /\ wkpool (RegHTTPHandler ipt g) = wkpool (started ipt g)
  /\ localCache (RegHTTPHandler ipt g) = localCache (started ipt g)
  /\ consumers (RegHTTPHandler ipt g) = consumers (started ipt g).
Proof.
  unfold RegHTTPHandler, started.
  set (g1 := startLocalCache ipt (startWorkerPool ipt g)).
  pose proof (newAfterGather_spec ipt g1) as Hnew.
  destruct (newAfterGather ipt g1) as [p g2].
  destruct Hnew as (Hp & Hw & Hl & Hc & Hr).
  set (g3 := set_afterGatherRun (Some p) g2).
  assert (Hp3 : agHeap g3 !! p = _) by exact Hp.
  pose proof (appendFilters_lookup ipt p g3 _ Hp3) as Hchain.
  pose proof (appendFilters_globals ipt p g3) as (Hw4 & Hl4 & Ha4 & Hc4 & Hr4).
  set (g4 := appendFilters ipt p g3) in *.
  pose proof (registerRoute_globals ipt (Debugf "### register handler for %s of agent %s" g4))
    as (Hw5 & Hl5 & Ha5 & Hh5 & Hc5).
  set (g5 := registerRoute ipt _) in *.
  simpl in Hw5, Hl5, Ha5, Hh5, Hc5.
  assert (Hcache : cacheEnabled g5 = cacheEnabled g1).
  { unfold cacheEnabled. rewrite Hl5, Hl4. simpl. rewrite Hl. reflexivity. }
  split.
  - unfold chain. rewrite Ha5, Ha4. simpl. rewrite Hh5, Hchain, Hcache.
    reflexivity.
  - rewrite Hw5, Hw4, Hl5, Hl4, Hc5, Hc4. simpl. auto.
Qed.

End RegHTTPHandlerFacts.

(** ** The filter chain *)
Section ChainFacts.
Import F64 Jaeger Pipeline.

Context `{T : Types} {C : Collaborators} {Env : Surroundings}.

Lemma runFilters_app (fs1 fs2 : list Filter) (now : Z) (c : Seen) (xs : list Marked) :
  runFilters (fs1 ++ fs2) now c xs =
  let '(ys, c') := runFilters fs1 now c xs in runFilters fs2 now c' ys.
Proof.
  revert c xs. induction fs1 as [|f rest IH]; intros c xs; simpl.
  - reflexivity.
  - destruct (runFilter f now c xs) as [ys c']. apply IH.
Qed.

Lemma runFilters_snoc (fs : list Filter) (f : Filter) (now : Z) (c : Seen) (xs : list Marked) :
  runFilters (fs ++ [f]) now c xs =
  let '(ys, c') := runFilters fs now c xs in runFilter f now c' ys.
Proof.
  rewrite runFilters_app.
  destruct (runFilters fs now c xs) as [ys c']. simpl.
  destruct (runFilter f now c' ys). reflexivity.
Qed.

(** The chain of a configuration, stage by stage. *)
Lemma runFilters_specFilterOrder (ipt : Input) (now : Z) (c : Seen) (xs : list Marked) :
  runFilters (specFilterOrder ipt) now c xs =
  let xs1 := if negb (size (CloseResource ipt) =? 0)%nat
             then Close (CloseResource ipt) xs else xs in
  let xs2 := Penetrate xs1 in
  let '(xs3, c3) := if KeepRareResource ipt then Keep now Hour c xs2 else (xs2, c) in
  (match samplerConfigured ipt with
   | Some smp => Sample smp xs3
   | None => xs3
   end, c3).
Proof.
  unfold specFilterOrder.
  destruct (negb (size (CloseResource ipt) =? 0)%nat); simpl;
    destruct (KeepRareResource ipt); simpl;
    try destruct (Keep now Hour c _) as [xs3 c3];
    destruct (samplerConfigured ipt); reflexivity.
Qed.

(** C1: in the chain [RegHTTPHandler] builds, the stages stand in the
    order close-resource (only with rules configured), error penetration
    (always), rare resource keeper (only when enabled), sampler (only
    when configured); and a chain runs its filters in append order, each
    stage receiving what the stage before it returned. *)
Theorem filters_in_append_order (ipt : Input) (g : Pkg) :
  (exists ag, chain (RegHTTPHandler ipt g) = Some ag
              /\ agFilters ag = specFilterOrder ipt)
  /\ (forall (fs : list Filter) (f : Filter) (now : Z) (c : Seen) (xs : list Marked),
         runFilters (fs ++ [f]) now c xs =
         let '(ys, c') := runFilters fs now c xs in runFilter f now c' ys)
  /\ (forall (now : Z) (c : Seen) (xs : list Marked),
         runFilters (specFilterOrder ipt) now c xs =
         let xs1 := if negb (size (CloseResource ipt) =? 0)%nat
                    then Close (CloseResource ipt) xs else xs in
         let xs2 := Penetrate xs1 in
         let '(xs3, c3) := if KeepRareResource ipt then Keep now Hour c xs2 else (xs2, c) in
         (match samplerConfigured ipt with
          | Some smp => Sample smp xs3
          | None => xs3
          end, c3)).
Proof.
  split; [|split].
  - destruct (RegHTTPHandler_chain ipt g) as [Hc _].
    eexists. split; [exact Hc|reflexivity].
  - apply runFilters_snoc.
  - apply runFilters_specFilterOrder.
Qed.

(** *** The sampler *)

Lemma unit_interval (r : float64) :
  ge r (Num 0) && le r (Num 1) = true <->
  exists q, r = Num q /\ (0 <= q)%Q /\ (q <= 1)%Q.
Proof.
  split.
  - intros Hr. apply andb_true_iff in Hr as [H0 H1].
    destruct r as [|neg|q].
    + discriminate.
    + destruct neg; discriminate.
    + exists q. split; [reflexivity|].
      split; apply Qle_bool_iff; assumption.
  - intros (q & -> & H0 & H1). apply andb_true_iff.
    split; apply Qle_bool_iff; assumption.
Qed.

Lemma samplerConfigured_Some (ipt : Input) (smp : Sampler) :
  samplerConfigured ipt = Some smp <->
  Sampler_ ipt = Some smp
  /\ exists q, SamplingRateGlobal smp = Num q /\ (0 <= q)%Q /\ (q <= 1)%Q.
Proof.
  unfold samplerConfigured. rewrite <- unit_interval.
  destruct (Sampler_ ipt) as [smp'|].
  - destruct (ge (SamplingRateGlobal smp') (Num 0) && le (SamplingRateGlobal smp') (Num 1))
      eqn:E.
    + split.
      * intros Heq. inversion Heq; subst. auto.
      * intros [Heq _]. exact Heq.
    + split; [discriminate|].
      intros [Heq Hr]. inversion Heq; subst. congruence.
  - split; [discriminate|]. intros [Heq _]. discriminate.
Qed.

Lemma sampler_stage_present (ipt : Input) (smp : Sampler) :
  Sampler_Sample smp ∈ specFilterOrder ipt <-> samplerConfigured ipt = Some smp.
Proof.
  unfold specFilterOrder, Sampler_Init.
  rewrite !elem_of_app, list_elem_of_singleton.
  split.
  - intros [H1|[H2|[H3|H4]]].
    + destruct (negb _); [|inversion H1].
      apply list_elem_of_singleton in H1. discriminate.
    + discriminate.
    + destruct (KeepRareResource ipt); [|inversion H3].
      apply list_elem_of_singleton in H3. discriminate.
    + destruct (samplerConfigured ipt) as [smp'|]; [|inversion H4].
      apply list_elem_of_singleton in H4. congruence.
  - intros ->. right. right. right. apply list_elem_of_singleton. reflexivity.
Qed.

Lemma sampled_zero (s : Span) : sampled (Num 0) s = false.
Proof.
  unfold sampled, lt. simpl.
  destruct (draw_range s) as [H0 _].
  apply Qle_bool_iff in H0. rewrite H0. simpl. apply andb_false_r.
Qed.

Lemma sampled_Num (q : Q) (s : Span) :
  sampled (Num q) s = true <-> (draw s < q)%Q.
Proof.
  unfold sampled, lt. simpl. rewrite andb_true_iff, negb_true_iff.
  rewrite Qle_bool_iff. split.
  - intros [Hle Hn]. apply Qnot_le_lt. intros Hge.
    apply Qle_bool_iff in Hge. congruence.
  - intros Hlt. split; [apply Qlt_le_weak; exact Hlt|].
    destruct (Qle_bool q (draw s)) eqn:E; [|reflexivity].
    apply Qle_bool_iff in E. exfalso. exact (Qlt_not_le _ _ Hlt E).
Qed.

Lemma elem_of_Sample (smp : Sampler) (xs : list Marked) (a : Marked) :
  a ∈ Sample smp xs <->
  a ∈ xs /\ (forceKeep a = true \/ sampled (SamplingRateGlobal smp) (span a) = true).
Proof.
  unfold Sample. rewrite !list_elem_of_In, filter_In, orb_true_iff. reflexivity.
Qed.

(** With rate 0 behind error penetration, exactly the error-flagged spans
    are left, in their order. *)
Lemma Sample_zero_Penetrate (smp : Sampler) (spans : list Span) :
  SamplingRateGlobal smp = Num 0 ->
  Sample smp (Penetrate (map unmarked spans)) =
  map (fun s => keep (unmarked s)) (List.filter spError spans).
Proof.
  intros Hrate. unfold Sample, Penetrate. rewrite Hrate.
  induction spans as [|s rest IH]; simpl; [reflexivity|].
  destruct (spError s) eqn:E; simpl.
  - f_equal. exact IH.
  - rewrite sampled_zero. simpl. exact IH.
Qed.

Lemma keep_marked (a : Marked) : forceKeep a = true -> keep a = a.
Proof. destruct a as [s fk]. simpl. intros ->. reflexivity. Qed.

(** The keeper passes a force-kept span on as it is. *)
Lemma Keep_keeps_marked (now window : Z) (xs : list Marked) :
  forall (c : Seen) (a : Marked),
    a ∈ xs -> forceKeep a = true -> a ∈ fst (Keep now window c xs).
Proof.
  induction xs as [|x rest IH]; intros c a Hin Hfk; [inversion Hin|].
  simpl.
  specialize (IH (<[resourceKey (span x) := now]> c) a).
  destruct (Keep now window (<[resourceKey (span x) := now]> c) rest) as [rest' c''].
  simpl in *. apply elem_of_cons in Hin as [->|Hin].
  - rewrite (keep_marked x Hfk). destruct (rare c now window (span x)); left.
  - right. apply IH; assumption.
Qed.

(** An error-flagged span that no close-resource rule matches leaves the
    chain of any configuration, force-kept. *)
Lemma error_span_survives (ipt : Input) (now : Z) (c : Seen) (spans : list Span) (s : Span) :
  s ∈ spans -> spError s = true -> closed (CloseResource ipt) s = false ->
  keep (unmarked s) ∈ fst (runFilters (specFilterOrder ipt) now c (map unmarked spans)).
Proof.
  intros Hin Herr Hopen. rewrite runFilters_specFilterOrder.
  set (xs1 := if negb (size (CloseResource ipt) =? 0)%nat
              then Close (CloseResource ipt) (map unmarked spans)
              else map unmarked spans).
  assert (H1 : unmarked s ∈ xs1).
  { assert (H0 : unmarked s ∈ map unmarked spans)
      by (apply list_elem_of_fmap; eauto).
    subst xs1. destruct (negb _); [|exact H0].
    unfold Close. apply list_elem_of_In, filter_In. split.
    - apply list_elem_of_In. exact H0.
    - simpl. rewrite Hopen. reflexivity. }
  assert (H2 : keep (unmarked s) ∈ Penetrate xs1).
  { unfold Penetrate. apply list_elem_of_fmap. exists (unmarked s).
    split; [|exact H1]. simpl. rewrite Herr. reflexivity. }
  simpl.
  assert (H3 : keep (unmarked s) ∈
               fst (if KeepRareResource ipt
                    then Keep now Hour c (Penetrate xs1)
                    else (Penetrate xs1, c))).
  { destruct (KeepRareResource ipt); [|exact H2].
    apply Keep_keeps_marked; [exact H2|reflexivity]. }
  destruct (if KeepRareResource ipt then Keep now Hour c (Penetrate xs1)
            else (Penetrate xs1, c)) as [xs3 c3].
  simpl in *. destruct (samplerConfigured ipt) as [smp|]; [|exact H3].
  apply elem_of_Sample. split; [exact H3|]. left. reflexivity.
Qed.

(** At rate 0 whatever leaves the chain is force-kept. *)
Lemma rate_zero_survivors (ipt : Input) (smp : Sampler) (now : Z) (c : Seen)
      (xs : list Marked) (a : Marked) :
  samplerConfigured ipt = Some smp -> SamplingRateGlobal smp = Num 0 ->
  a ∈ fst (runFilters (specFilterOrder ipt) now c xs) -> forceKeep a = true.
Proof.
  intros Hcfg Hrate. rewrite runFilters_specFilterOrder. simpl.
  destruct (if KeepRareResource ipt then _ else _) as [xs3 c3].
  rewrite Hcfg. simpl. rewrite elem_of_Sample, Hrate, sampled_zero.
  intros [_ [Hfk|Hs]]; [exact Hfk|discriminate].
Qed.

(** C2: the sampler keeps a span that is not force-kept exactly when its
    variate is below the configured rate, and keeps every force-kept span
    whatever the rate; with rate 0 behind error penetration, and neither
    close-resource rules nor the rare resource keeper configured, the
    chain of the jaeger input lets through exactly the error-flagged
    spans; in any configuration an error-flagged span that no
    close-resource rule matches leaves the chain, and at rate 0 only
    force-kept spans do; and the jaeger input appends the sampler stage
    only when a sampler is configured with a rate between 0 and 1
    inclusive. *)
Theorem sampler_honours_force_keep (ipt : Input) (g : Pkg) :
  (forall (smp : Sampler) (q : Q) (xs : list Marked) (a : Marked),
      SamplingRateGlobal smp = Num q ->
      forceKeep a = false ->
      (a ∈ Sample smp xs <-> a ∈ xs /\ (draw (span a) < q)%Q))
  /\ (forall (smp : Sampler) (xs : list Marked) (a : Marked),
         a ∈ xs -> forceKeep a = true -> a ∈ Sample smp xs)
  /\ (forall (smp : Sampler) (now : Z) (c : Seen) (spans : list Span),
         size (CloseResource ipt) = 0%nat ->
         KeepRareResource ipt = false ->
         Sampler_ ipt = Some smp ->
         SamplingRateGlobal smp = Num 0 ->
         exists ag,
           chain (RegHTTPHandler ipt g) = Some ag
           /\ runFilters (agFilters ag) now c (map unmarked spans) =
              (map (fun s => keep (unmarked s)) (List.filter spError spans), c)
           /\ (forall s,
                  s ∈ map span (fst (runFilters (agFilters ag) now c (map unmarked spans)))
                  <-> s ∈ spans /\ spError s = true))
  /\ (forall (ag : AfterGather) (now : Z) (c : Seen) (spans : list Span),
         chain (RegHTTPHandler ipt g) = Some ag ->
         (forall s,
             s ∈ spans -> spError s = true -> closed (CloseResource ipt) s = false ->
             keep (unmarked s) ∈ fst (runFilters (agFilters ag) now c (map unmarked spans)))
         /\ (forall smp a,
                Sampler_ ipt = Some smp -> SamplingRateGlobal smp = Num 0 ->
                a ∈ fst (runFilters (agFilters ag) now c (map unmarked spans)) ->
                forceKeep a = true))
  /\ (forall ag : AfterGather,
         chain (RegHTTPHandler ipt g) = Some ag ->
         forall smp : Sampler,
           Sampler_Sample smp ∈ agFilters ag <->
           Sampler_ ipt = Some smp
           /\ exists q, SamplingRateGlobal smp = Num q /\ (0 <= q)%Q /\ (q <= 1)%Q).
Proof.
  split; [|split; [|split; [|split]]].
  - intros smp q xs a Hrate Hfk.
    rewrite elem_of_Sample, Hrate, sampled_Num. split.
    + intros [Hin [Hk|Hs]]; [congruence|auto].
    + intros [Hin Hs]. auto.
  - intros smp xs a Hin Hfk. apply elem_of_Sample. auto.
  - intros smp now c spans Hclose Hkeep Hsmp Hrate.
    destruct (RegHTTPHandler_chain ipt g) as [Hc _].
    eexists. split; [exact Hc|]. simpl.
    assert (Hcfg : samplerConfigured ipt = Some smp).
    { apply samplerConfigured_Some. split; [exact Hsmp|].
      exists 0%Q. split; [exact Hrate|]. split; [apply Qle_refl|discriminate]. }
    assert (Hrun : runFilters (specFilterOrder ipt) now c (map unmarked spans) =
                   (map (fun s => keep (unmarked s)) (List.filter spError spans), c)).
    { rewrite runFilters_specFilterOrder, Hclose, Hkeep, Hcfg. simpl.
      rewrite (Sample_zero_Penetrate smp spans Hrate). reflexivity. }
    split; [exact Hrun|].
    intros s. rewrite Hrun. simpl. rewrite map_map. simpl. rewrite map_id.
    rewrite !list_elem_of_In. apply filter_In.
  - intros ag now c spans Hag.
    destruct (RegHTTPHandler_chain ipt g) as [Hc _].
    rewrite Hc in Hag. inversion Hag; subst ag. simpl. split.
    + intros s. apply error_span_survives.
    + intros smp a Hsmp Hrate. apply (rate_zero_survivors ipt smp); [|exact Hrate].
      apply samplerConfigured_Some. split; [exact Hsmp|].
      exists 0%Q. split; [exact Hrate|]. split; [apply Qle_refl|discriminate].
  - intros ag Hag smp.
    destruct (RegHTTPHandler_chain ipt g) as [Hc _].
    rewrite Hc in Hag. inversion Hag; subst ag. simpl.
    rewrite sampler_stage_present. apply samplerConfigured_Some.
Qed.

End ChainFacts.

(** ** The rare resource keeper, the retry policy and the fallback *)
Section KeeperFacts.
Import F64 Jaeger Pipeline.

Context `{T : Types} {C : Collaborators} {Env : Surroundings}.

Lemma Keep_drops_nothing (now window : Z) (xs : list Marked) :
  forall c : Seen, map span (fst (Keep now window c xs)) = map span xs.
Proof.
  induction xs as [|a rest IH]; intros c; simpl; [reflexivity|].
  specialize (IH (<[resourceKey (span a) := now]> c)).
  destruct (Keep now window (<[resourceKey (span a) := now]> c) rest) as [rest' c''].
  simpl in *. rewrite IH.
  destruct (rare c now window (span a)); reflexivity.
Qed.

Lemma Keep_first (now window : Z) (c : Seen) (a : Marked) :
  rare c now window (span a) = true ->
  Keep now window c [a] = ([keep a], <[resourceKey (span a) := now]> c).
Proof. intros Hr. simpl. rewrite Hr. reflexivity. Qed.

Lemma Keep_again (now window : Z) (c : Seen) (a : Marked) :
  rare c now window (span a) = false ->
  Keep now window c [a] = ([a], <[resourceKey (span a) := now]> c).
Proof. intros Hr. simpl. rewrite Hr. reflexivity. Qed.

Lemma rare_unseen (c : Seen) (now window : Z) (s : Span) :
  c !! resourceKey s = None -> rare c now window s = true.
Proof. intros Hc. unfold rare. rewrite Hc. reflexivity. Qed.

Lemma rare_expired (c : Seen) (now window t : Z) (s : Span) :
  c !! resourceKey s = Some t -> window <= now - t -> rare c now window s = true.
Proof. intros Hc Hw. unfold rare. rewrite Hc. apply Z.leb_le. exact Hw. Qed.

Lemma rare_recent (c : Seen) (now window t : Z) (s : Span) :
  c !! resourceKey s = Some t -> now - t < window -> rare c now window s = false.
Proof. intros Hc Hw. unfold rare. rewrite Hc. apply Z.leb_gt. exact Hw. Qed.

Lemma keeper_stage_present (ipt : Input) (open : bool) (duration : Z) :
  KeepRareResource_Keep open duration ∈ specFilterOrder ipt <->
  KeepRareResource ipt = true /\ open = true /\ duration = Hour.
Proof.
  unfold specFilterOrder.
  rewrite !elem_of_app, list_elem_of_singleton.
  split.
  - intros [H1|[H2|[H3|H4]]].
    + destruct (negb _); [|inversion H1].
      apply list_elem_of_singleton in H1. discriminate.
    + discriminate.
    + destruct (KeepRareResource ipt); [|inversion H3].
      apply list_elem_of_singleton in H3. inversion H3. auto.
    + destruct (samplerConfigured ipt) as [smp'|]; [|inversion H4].
      apply list_elem_of_singleton in H4. discriminate.
  - intros (Hk & -> & ->). right. right. left. rewrite Hk.
    apply list_elem_of_singleton. reflexivity.
Qed.

(** C5: the rare resource keeper force-keeps the first occurrence of a
    (service, resource) pair within its window and passes a later
    occurrence in the same window through as it came, dropping nothing;
    the jaeger input configures it with a window of one hour; so with
    sampler rate 0, the keeper enabled and no close-resource rule, a span
    whose pair the cache has not seen is kept, and the same span less than
    an hour later, one second later in particular, is dropped when it is
    not error-flagged. *)
Theorem rare_resource_first_kept (ipt : Input) (g : Pkg) :
  (forall (now window : Z) (c : Seen) (a : Marked),
      (c !! resourceKey (span a) = None
       \/ exists t, c !! resourceKey (span a) = Some t /\ window <= now - t) ->
      Keep now window c [a] = ([keep a], <[resourceKey (span a) := now]> c))
  /\ (forall (now window t : Z) (c : Seen) (a : Marked),
         c !! resourceKey (span a) = Some t -> now - t < window ->
         Keep now window c [a] = ([a], <[resourceKey (span a) := now]> c))
  /\ (forall (now window : Z) (c : Seen) (xs : list Marked),
         map span (fst (Keep now window c xs)) = map span xs)
  /\ (forall (ag : AfterGather) (open : bool) (duration : Z),
         chain (RegHTTPHandler ipt g) = Some ag ->
         (KeepRareResource_Keep open duration ∈ agFilters ag <->
          KeepRareResource ipt = true /\ open = true /\ duration = Hour))
  /\ Hour = 3600 * 1000000000
  /\ (forall (smp : Sampler) (now delta : Z) (c : Seen) (s : Span),
         size (CloseResource ipt) = 0%nat ->
         KeepRareResource ipt = true ->
         Sampler_ ipt = Some smp ->
         SamplingRateGlobal smp = Num 0 ->
         c !! resourceKey s = None ->
         spError s = false ->
         0 <= delta < Hour ->
         exists ag,
           chain (RegHTTPHandler ipt g) = Some ag
           /\ runFilters (agFilters ag) now c [unmarked s] =
              ([keep (unmarked s)], <[resourceKey s := now]> c)
           /\ fst (runFilters (agFilters ag) (now + delta)
                              (<[resourceKey s := now]> c) [unmarked s]) = []
           /\ 0 <= Second < Hour).
Proof.
  split; [|split; [|split; [|split; [|split]]]].
  - intros now window c a [Hc|(t & Hc & Hw)]; apply Keep_first.
    + apply rare_unseen. exact Hc.
    + eapply rare_expired; eassumption.
  - intros now window t c a Hc Hw. apply Keep_again.
    eapply rare_recent; eassumption.
  - intros now window c xs. apply Keep_drops_nothing.
  - intros ag open duration Hag.
    destruct (RegHTTPHandler_chain ipt g) as [Hc _].
    rewrite Hc in Hag. inversion Hag; subst ag. simpl.
    apply keeper_stage_present.
  - reflexivity.
  - intros smp now delta c s Hclose Hkeep Hsmp Hrate Hc Herr Hdelta.
    destruct (RegHTTPHandler_chain ipt g) as [Hch _].
    eexists. split; [exact Hch|]. simpl.
    assert (Hcfg : samplerConfigured ipt = Some smp).
    { apply samplerConfigured_Some. split; [exact Hsmp|].
      exists 0%Q. split; [exact Hrate|]. split; [apply Qle_refl|discriminate]. }
    split; [|split].
    + rewrite runFilters_specFilterOrder, Hclose, Hkeep, Hcfg. simpl.
      rewrite Herr. simpl.
      rewrite (rare_unseen c now Hour s Hc). reflexivity.
    + rewrite runFilters_specFilterOrder, Hclose, Hkeep, Hcfg. simpl.
      rewrite Herr. simpl.
      rewrite (rare_recent (<[resourceKey s := now]> c) (now + delta) Hour now s);
        [|apply lookup_insert_eq|lia].
      simpl. unfold Sample. simpl. rewrite Hrate, sampled_zero. reflexivity.
    + unfold Hour, Second, Millisecond. lia.
Qed.

(** *** The fallback after a feed failure *)

Lemma Run_stored (ag : AfterGather) (now : Z) (spans : list Span) (w : World) :
  stored (snd (Run ag now spans w)) = stored w.
Proof.
  unfold Run.
  destruct (runFilters (agFilters ag) now (seen w) (map unmarked spans)) as [out c].
  destruct out as [|a out]; [reflexivity|].
  destruct (feedSpans (agRetry ag) now (map span (a :: out))); reflexivity.
Qed.

Lemma ingest_without_cache (g : Pkg) (now : Z) (req : Request) (w : World) :
  cacheEnabled g = false ->
  fst (ingest g now req w) <> Buffered
  /\ stored (snd (ingest g now req w)) = stored w.
Proof.
  intros Hc. unfold ingest. rewrite Hc.
  destruct (decode req) as [spans|e]; [|split; [discriminate|reflexivity]].
  destruct (match wkpool g with Some p => admits p now | None => true end);
    [|split; [discriminate|reflexivity]].
  destruct (chain g) as [ag|]; [|split; [discriminate|reflexivity]].
  pose proof (Run_stored ag now spans w) as Hs.
  destruct (Run ag now spans w) as [[| |e] w']; simpl in *;
    (split; [discriminate|exact Hs]).
Qed.

Lemma cacheEnabled_true (g : Pkg) :
  cacheEnabled g = true <-> exists s, localCache g = Some s /\ Storage_Enabled s = true.
Proof.
  unfold cacheEnabled. destruct (localCache g) as [s|].
  - split; [eauto|]. intros (s' & Hs & He). inversion Hs; subst. exact He.
  - split; [discriminate|]. intros (s' & Hs & _). discriminate.
Qed.

(** C6: the [AfterGather] of the jaeger input is constructed with the
    retry interval of 100 ms if and only if the local cache is non-nil
    and enabled, and without a retry interval otherwise; in that case an
    ingestion never ends buffered, the durable buffer stays as it was,
    and a feed failure ends dropped with a line in the log. *)
Theorem retry_iff_cache_enabled (ipt : Input) (g : Pkg) :
  exists ag,
    chain (RegHTTPHandler ipt g) = Some ag
    /\ (agRetry ag = Some (100 * Millisecond) <->
        exists s, localCache (RegHTTPHandler ipt g) = Some s /\ Storage_Enabled s = true)
    /\ (agRetry ag = None <->
        ~ exists s, localCache (RegHTTPHandler ipt g) = Some s /\ Storage_Enabled s = true)
    /\ 100 * Millisecond = 100000000
    /\ (agRetry ag = None ->
        forall (now : Z) (req : Request) (w : World),
          fst (ingest (RegHTTPHandler ipt g) now req w) <> Buffered
          /\ stored (snd (ingest (RegHTTPHandler ipt g) now req w)) = stored w
          /\ (forall spans e w',
                 decode req = Ok spans ->
                 match wkpool (RegHTTPHandler ipt g) with
                 | Some p => admits p now
                 | None => true
                 end = true ->
                 Run ag now spans w = (RunFeedFailed e, w') ->
                 ingest (RegHTTPHandler ipt g) now req w =
                 (Dropped, add_log (LogError "feed failed") w'))).
Proof.
  destruct (RegHTTPHandler_chain ipt g) as [Hc _].
  eexists. split; [exact Hc|]. simpl.
  rewrite <- cacheEnabled_true.
  destruct (cacheEnabled (RegHTTPHandler ipt g)) eqn:E.
  - split; [tauto|]. split; [|split; [reflexivity|discriminate]].
    split; [discriminate|]. intros Hn. exfalso. apply Hn. reflexivity.
  - split; [split; discriminate|].
    split; [split; [intros _; discriminate|reflexivity]|].
    split; [reflexivity|].
    intros _ now req w.
    destruct (ingest_without_cache _ now req w E) as [Hb Hs].
    split; [exact Hb|]. split; [exact Hs|].
    intros spans e w' Hd Ha Hrun.
    unfold ingest. rewrite Hd, Ha, Hc, Hrun, E. reflexivity.
Qed.

End KeeperFacts.

(** ** jaeger: the replay consumer *)
Section ReplayFacts.
Import F64 Jaeger.

Context `{T : Types} {C : Collaborators}.

Lemma startWorkerPool_consumers (ipt : Input) (g : Pkg) :
  consumers (startWorkerPool ipt g) = consumers g.
Proof.
  unfold startWorkerPool.
  destruct (WPConfig ipt) as [cfg|]; [|reflexivity].
  destruct (NewWorkerPool cfg) as [p|[p e]]; [|reflexivity].
  simpl. destruct (WorkerPool_Start p); reflexivity.
Qed.

Lemma startLocalCache_consumers (ipt : Input) (g : Pkg) (cfg : StorageConfig) (s : Storage) :
  LocalCacheConfig ipt = Some cfg ->
  NewStorage cfg = Ok s ->
  consumers (startLocalCache ipt g) = RegisterConsumer s HTTP_KEY replayConsumer (consumers g).
Proof.
  intros Hcfg Hnew. unfold startLocalCache. rewrite Hcfg, Hnew. simpl.
  destruct (RunConsumeWorker s); reflexivity.
Qed.

Lemma replayConsumer_ok (buf : bytes) (reqpb : RequestPB) (w : W) :
  proto_Unmarshal buf = Ok reqpb ->
  fst (fst (replayConsumer buf w)) = None
  /\ snd (replayConsumer buf w) = handleJaegerTrace NopResponseWriter (rebuildRequest reqpb) w.
Proof. intros Hu. unfold replayConsumer. rewrite Hu. split; reflexivity. Qed.

(** C3: the consumer that the jaeger input binds to the HTTP storage key
    passes the rebuilt request to [handleJaegerTrace], the handler that
    the input's HTTP route wraps for live requests, and does nothing else
    to the world: replayed data goes through the handler that
    first-attempt data goes through. *)
Theorem replay_reenters_live_handler (ipt : Input) (g : Pkg) :
  (Endpoint ipt <> EmptyString ->
   exists r,
     last (routes (RegHTTPHandler ipt g)) = Some r
     /\ routeMethod r = "POST"%string
     /\ routePath r = Endpoint ipt
     /\ routeHandler r =
        workerpool_HTTPWrapper httpStatusRespFunc (wkpool (RegHTTPHandler ipt g))
          (HTTPStorageWrapper HTTP_KEY httpStatusRespFunc (localCache (RegHTTPHandler ipt g))
             handleJaegerTrace))
  /\ (forall (cfg : StorageConfig) (s : Storage),
         LocalCacheConfig ipt = Some cfg ->
         NewStorage cfg = Ok s ->
         consumers g !! (s, HTTP_KEY) = None ->
         consumers (RegHTTPHandler ipt g) !! (s, HTTP_KEY) = Some replayConsumer)
  /\ (forall (buf : bytes) (reqpb : RequestPB) (w : W),
         proto_Unmarshal buf = Ok reqpb ->
         snd (replayConsumer buf w) =
         handleJaegerTrace NopResponseWriter (rebuildRequest reqpb) w).
Proof.
  split; [|split].
  - intros Hep.
    assert (Hne : negb (String.eqb (Endpoint ipt) EmptyString) = true).
    { apply negb_true_iff. apply String.eqb_neq. exact Hep. }
    unfold RegHTTPHandler.
    destruct (newAfterGather ipt (startLocalCache ipt (startWorkerPool ipt g))) as [p g2].
    unfold registerRoute. rewrite Hne.
    eexists. split; [apply last_snoc|].
    simpl. repeat split; reflexivity.
  - intros cfg s Hcfg Hnew Hfree.
    destruct (RegHTTPHandler_chain ipt g) as (_ & _ & _ & Hcons).
    rewrite Hcons. unfold started.
    rewrite (startLocalCache_consumers ipt _ cfg s Hcfg Hnew).
    rewrite startWorkerPool_consumers.
    unfold RegisterConsumer. rewrite Hfree. apply lookup_insert_eq.
  - intros buf reqpb w Hu. apply (replayConsumer_ok buf reqpb w Hu).
Qed.

(** C4: from a buffered payload that unmarshals, the replay consumer
    rebuilds a request that carries the method, the protocol with its
    major and minor version, the header multimap, the body bytes, the
    content length, the transfer encoding, the host, the form and
    post-form fields, the remote address, the request URI and the URL
    parsed from the stored URL string, and passes that request to
    [handleJaegerTrace]. *)
Theorem replay_rebuilds_request (buf : bytes) (reqpb : RequestPB) (u : URL) (w : W) :
  proto_Unmarshal buf = Ok reqpb ->
  url_Parse (pbUrl reqpb) = Ok u ->
  exists req : Request,
    snd (replayConsumer buf w) = handleJaegerTrace NopResponseWriter req w
    /\ Method req = pbMethod reqpb
    /\ Proto req = pbProto reqpb
    /\ ProtoMajor req = pbProtoMajor reqpb
    /\ ProtoMinor req = pbProtoMinor reqpb
    /\ Header req = ConvertMapEntriesToMap (pbHeader reqpb)
    /\ Body req = pbBody reqpb
    /\ ContentLength req = pbContentLength reqpb
    /\ TransferEncoding req = pbTransferEncoding reqpb
    /\ Host req = pbHost reqpb
    /\ Form req = ConvertMapEntriesToMap (pbForm reqpb)
    /\ PostForm req = ConvertMapEntriesToMap (pbPostForm reqpb)
    /\ RemoteAddr req = pbRemoteAddr reqpb
    /\ RequestURI req = pbRequestUri reqpb
    /\ URL_ req = Some u.
Proof.
  intros Hu Hurl. exists (rebuildRequest reqpb).
  split; [apply (replayConsumer_ok buf reqpb w Hu)|].
  unfold rebuildRequest. simpl. rewrite Hurl.
  repeat split; reflexivity.
Qed.

(** C8: the replay consumer returns a non-nil error exactly when
    unmarshalling the payload fails, and then that error; when
    unmarshalling succeeds it returns nil, also when the stored URL does
    not parse, in which case the handler still receives the request,
    without a URL, and whatever the handler does. *)
Theorem replay_error_only_from_unmarshal (buf : bytes) (w : W) :
  (forall err : error,
      fst (fst (replayConsumer buf w)) = Some err <-> proto_Unmarshal buf = Err err)
  /\ (forall reqpb : RequestPB,
         proto_Unmarshal buf = Ok reqpb ->
         fst (fst (replayConsumer buf w)) = None)
  /\ (forall (reqpb : RequestPB) (e : error),
         proto_Unmarshal buf = Ok reqpb ->
         url_Parse (pbUrl reqpb) = Err e ->
         fst (fst (replayConsumer buf w)) = None
         /\ URL_ (rebuildRequest reqpb) = None
         /\ snd (replayConsumer buf w) =
            handleJaegerTrace NopResponseWriter (rebuildRequest reqpb) w).
Proof.
  split; [|split].
  - intros err. unfold replayConsumer.
    destruct (proto_Unmarshal buf) as [reqpb|e]; simpl.
    + split; discriminate.
    + split; intros Heq; inversion Heq; reflexivity.
  - intros reqpb Hu. apply (replayConsumer_ok buf reqpb w Hu).
  - intros reqpb e Hu Hurl.
    destruct (replayConsumer_ok buf reqpb w Hu) as [Hn Hw].
    split; [exact Hn|]. split; [|exact Hw].
    unfold rebuildRequest. simpl. rewrite Hurl. reflexivity.
Qed.

End ReplayFacts.

(** ** The jaeger input on concrete configurations *)
Section JaegerRuns.
Import F64 Jaeger Pipeline Samples.

#[local] Existing Instance jaegerTypes.
#[local] Existing Instance jaegerCollaborators.
#[local] Existing Instance jaegerSurroundings.

(** With every stage configured the chain has the four of them. *)
Example full_chain :
  agFilters <$> chain (RegHTTPHandler fullInput emptyPkg) =
  Some [CloseResource_Close {[ "*"%string := ["/health"%string] ]};
        PenetrateErrorTracing;
        KeepRareResource_Keep true 3600000000000;
        Sampler_Sample {| SamplingRateGlobal := Num 1 |}].
Proof. vm_compute. reflexivity. Qed.

(** A storage that does not open leaves the chain without retry. *)
Example full_chain_no_retry :
  agRetry <$> chain (RegHTTPHandler fullInput emptyPkg) = Some None
  /\ localCache (RegHTTPHandler fullInput emptyPkg) = None.
Proof. split; reflexivity. Qed.

Example sampled_chain_retry :
  agRetry <$> chain (RegHTTPHandler sampledInput emptyPkg) = Some (Some 100000000).
Proof. reflexivity. Qed.

(** Three retries within the first second all fail: the request is
    buffered.  From 800 ms on a retry gets through. *)
Example ingest_buffered :
  fst (ingest (RegHTTPHandler sampledInput emptyPkg) 0 liveRequest emptyWorld) = Buffered
  /\ stored (snd (ingest (RegHTTPHandler sampledInput emptyPkg) 0 liveRequest emptyWorld))
     = [somePayload].
Proof. split; vm_compute; reflexivity. Qed.

Example ingest_fed_after_retry :
  fst (ingest (RegHTTPHandler sampledInput emptyPkg) (800 * Millisecond) liveRequest emptyWorld)
  = Fed.
Proof. vm_compute. reflexivity. Qed.

(** Of three decoded spans only the error-flagged one is fed at rate 0. *)
Example ingest_feeds_error_span :
  fed (snd (ingest (RegHTTPHandler sampledInput emptyPkg) (2 * Second) liveRequest emptyWorld))
  = [[spanOf "web" "GET /" true]].
Proof. vm_compute. reflexivity. Qed.

(** At rate 0 behind the keeper: the first span of each pair and the
    error-flagged one are left. *)
Example keeper_chain_run :
  map (fun a => (spService (span a), spError (span a)))
      (fst (runFilters (specFilterOrder keeperInput) 0 ∅ (map unmarked someSpans)))
  = [("web"%string, false); ("web"%string, true); ("db"%string, true)].
Proof. vm_compute. reflexivity. Qed.

Example replay_bad_url :
  replayConsumer badUrlPayload [] =
  (None,
   [LogError "### parse raw URL: %s failed: %s";
    LogDebug "### process status: buffer-size: %dkb, cost: %dms, err: %v"],
   ["/apis/traces"%string]).
Proof. reflexivity. Qed.

Example replay_empty_payload :
  replayConsumer [] [] = (Some "empty payload"%string, [], []).
Proof. reflexivity. Qed.

Lemma sampler_honours_force_keep_witness :
  exists ag,
    chain (RegHTTPHandler sampledInput emptyPkg) = Some ag
    /\ runFilters (agFilters ag) 0 ∅ (map unmarked someSpans) =
       (map (fun s => keep (unmarked s)) (List.filter spError someSpans), ∅).
Proof.
  destruct (sampler_honours_force_keep sampledInput emptyPkg) as (_ & _ & Hp1 & _ & _).
  destruct (Hp1 zeroSampler 0 ∅ someSpans eq_refl eq_refl eq_refl eq_refl)
    as (ag & Hc & Hrun & _).
  exists ag. split; [exact Hc|exact Hrun].
Defined.

Lemma rare_resource_first_kept_witness :
  exists ag,
    chain (RegHTTPHandler keeperInput emptyPkg) = Some ag
    /\ runFilters (agFilters ag) 0 ∅ [unmarked (spanOf "web" "GET /" false)] =
       ([keep (unmarked (spanOf "web" "GET /" false))],
        <[resourceKey (spanOf "web" "GET /" false) := 0]> ∅)
    /\ fst (runFilters (agFilters ag) (0 + Second)
                       (<[resourceKey (spanOf "web" "GET /" false) := 0]> ∅)
                       [unmarked (spanOf "web" "GET /" false)]) = [].
Proof.
  destruct (rare_resource_first_kept keeperInput emptyPkg) as (_ & _ & _ & _ & _ & Hp3).
  assert (Hsec : 0 <= Second < Hour) by (unfold Hour, Second, Millisecond; lia).
  destruct (Hp3 zeroSampler 0 Second ∅ (spanOf "web" "GET /" false)
                eq_refl eq_refl eq_refl eq_refl (lookup_empty _) eq_refl Hsec)
    as (ag & Hc & Hfirst & Hsecond & _).
  exists ag. split; [exact Hc|]. split; [exact Hfirst|exact Hsecond].
Defined.

Lemma retry_iff_cache_enabled_witness :
  ingest (RegHTTPHandler plainInput emptyPkg) 0 liveRequest emptyWorld =
  (Dropped, add_log (LogError "feed failed") emptyWorld).
Proof.
  destruct (retry_iff_cache_enabled plainInput emptyPkg)
    as (ag & Hc & _ & Hnone & _ & Hdrop).
  assert (Hretry : agRetry ag = None).
  { apply Hnone. intros (s & Hs & _). discriminate Hs. }
  destruct (Hdrop Hretry 0 liveRequest emptyWorld) as (_ & _ & Hfail).
  apply (Hfail [spanOf "web" "GET /" true; spanOf "web" "GET /" false;
                spanOf "web" "GET /" false]
               "unavailable"%string emptyWorld).
  - reflexivity.
  - reflexivity.
  - vm_compute in Hc. injection Hc as <-. vm_compute. reflexivity.
Defined.

Lemma replay_reenters_live_handler_witness :
  consumers (RegHTTPHandler sampledInput emptyPkg) !! (7%nat, HTTP_KEY) = Some replayConsumer
  /\ snd (replayConsumer somePayload []) =
     handleJaegerTrace NopResponseWriter (rebuildRequest (messageOf somePayload)) [].
Proof.
  destruct (replay_reenters_live_handler sampledInput emptyPkg) as (_ & Hreg & Hrun).
  split.
  - apply (Hreg true 7%nat); reflexivity.
  - apply Hrun. reflexivity.
Defined.

Lemma replay_rebuilds_request_witness :
  proto_Unmarshal somePayload = Ok (messageOf somePayload)
  /\ url_Parse (pbUrl (messageOf somePayload)) = Ok "/apis/traces"%string
  /\ exists req : Request,
      snd (replayConsumer somePayload []) = handleJaegerTrace NopResponseWriter req []
      /\ Method req = "POST"%string
      /\ Body req = somePayload
      /\ URL_ req = Some "/apis/traces"%string.
Proof.
  assert (Hmsg : proto_Unmarshal somePayload = Ok (messageOf somePayload)) by reflexivity.
  assert (Hurl : url_Parse (pbUrl (messageOf somePayload)) = Ok "/apis/traces"%string)
    by reflexivity.
  split; [exact Hmsg|]. split; [exact Hurl|].
  destruct (replay_rebuilds_request (T := jaegerTypes) (C := jaegerCollaborators) somePayload (messageOf somePayload)
                                    "/apis/traces"%string (@nil string) Hmsg Hurl)
    as (req & Hh & Hm & _ & _ & _ & _ & Hb & _ & _ & _ & _ & _ & _ & _ & Hu).
  exists req. split; [exact Hh|]. split; [exact Hm|]. split; [exact Hb|exact Hu].
Defined.

Lemma replay_error_only_from_unmarshal_witness :
  fst (fst (replayConsumer badUrlPayload [])) = None
  /\ URL_ (rebuildRequest (messageOf badUrlPayload)) = None
  /\ fst (fst (replayConsumer [] [])) = Some "empty payload"%string.
Proof.
  destruct (replay_error_only_from_unmarshal (T := jaegerTypes) (C := jaegerCollaborators) badUrlPayload (@nil string)) as (_ & _ & Hbad).
  assert (Hmsg : proto_Unmarshal badUrlPayload = Ok (messageOf badUrlPayload))
    by reflexivity.
  assert (Hparse : url_Parse (pbUrl (messageOf badUrlPayload)) = Err "empty url"%string)
    by reflexivity.
  destruct (Hbad (messageOf badUrlPayload) "empty url"%string Hmsg Hparse)
    as (Hnil & Hurl & _).
  destruct (replay_error_only_from_unmarshal (T := jaegerTypes) (C := jaegerCollaborators) [] (@nil string)) as (Hiff & _).
  split; [exact Hnil|]. split; [exact Hurl|].
  apply Hiff. reflexivity.
Defined.

End JaegerRuns.
